(** * GreenSpring: pin-state reconciliation of the GPIO dashboard

    A shallow embedding of the two server programs of the repository:

    - [V2]: the server with mock mode, optional MQTT and absolute paths
      (src/unnamed/part_000);
    - [V1]: the first server (src/server.js).

    Both are single-threaded event handlers over process-wide state.  A handler
    is a function of the state monad [M] over the program's world (its global
    variables, the files it owns and the traces of what it sent); a JavaScript
    exception is the completion [Thrown].

    What lies outside the programs is modelled by its interface: a file holds
    a text that parses to a JSON value or does not parse; the broker and the
    sessions are the lists of what was sent to them; the hardware is a driver
    whose calls throw or do not, line by line, and a disk that takes a write
    or does not, file by file, the same during a whole run. *)

From stdpp Require Import gmap strings list fin_maps pretty.
From Stdlib Require Import ZArith Ascii String.

Local Open Scope string_scope.
Local Open Scope Z_scope.

(** * The JavaScript values the handlers compute with *)

Module Js.

(** A Number.  The programs only manipulate pin indices and levels, so the
    model keeps the integers and NaN (the result of a failed conversion);
    fractions, infinities and the sign of zero are outside it. *)
Inductive JsNum : Type :=
  | NaN
  | Num (z : Z).

#[global] Instance JsNum_eq_dec : EqDecision JsNum.
Proof. solve_decision. Defined.

#[global] Instance JsNum_countable : Countable JsNum.
Proof.
  refine (inj_countable'
            (λ n, match n with NaN => None | Num z => Some z end)
            (λ o, match o with None => NaN | Some z => Num z end) _).
  by intros [].
Defined.

(** A value as it arrives from [JSON.parse], from a Socket.IO payload or from
    an expression of the program.  An object is its list of own members; the
    members are data, never functions. *)
#[local] Unset Elimination Schemes.
Inductive JsValue : Type :=
  | JUndefined
  | JNull
  | JBool (b : bool)
  | JNumber (n : JsNum)
  | JString (s : string)
  | JArray (items : list JsValue)
  | JObject (members : list (string * JsValue)).
#[local] Set Elimination Schemes.

(** How a statement completes: normally with a value, or by throwing. *)
Inductive Completion (A : Type) : Type :=
  | Normal (a : A)
  | Thrown.
Arguments Normal {A} a.
Arguments Thrown {A}.

(** ** Strings

    A string is a sequence of code units below 256. *)

(** White space and line terminators among the code units below 256:
    TAB, LF, VT, FF, CR, SPACE and NBSP. *)
Definition isWhiteSpace (c : ascii) : bool :=
  match N_of_ascii c with
  | 9%N | 10%N | 11%N | 12%N | 13%N | 32%N | 160%N => true
  | _ => false
  end.

Fixpoint trimStart (s : string) : string :=
  match s with
  | String c s' => if isWhiteSpace c then trimStart s' else s
  | EmptyString => EmptyString
  end.

Fixpoint trimEnd (s : string) : string :=
  match s with
  | String c s' =>
      match trimEnd s' with
      | EmptyString => if isWhiteSpace c then EmptyString else String c EmptyString
      | t => String c t
      end
  | EmptyString => EmptyString
  end.

(** [String.prototype.trim] *)
Definition trim (s : string) : string := trimEnd (trimStart s).

Definition upperChar (c : ascii) : ascii :=
  let n := N_of_ascii c in
  if ((97 <=? n) && (n <=? 122))%N then ascii_of_N (n - 32) else c.

Definition lowerChar (c : ascii) : ascii :=
  let n := N_of_ascii c in
  if ((65 <=? n) && (n <=? 90))%N then ascii_of_N (n + 32) else c.

Fixpoint mapChars (f : ascii → ascii) (s : string) : string :=
  match s with
  | String c s' => String (f c) (mapChars f s')
  | EmptyString => EmptyString
  end.

(** [toUpperCase] and [toLowerCase] on the ASCII letters.  A code unit above
    127 is kept: none of them changes case into a letter of 'ON', '1' or 'in',
    the only strings the results are compared with. *)
Definition toUpperCase (s : string) : string := mapChars upperChar s.
Definition toLowerCase (s : string) : string := mapChars lowerChar s.

(** What is left of [s] after the literal text [p], when [s] starts with it *)
Fixpoint stripPrefix (p s : string) : option string :=
  match p with
  | EmptyString => Some s
  | String a p' =>
      match s with
      | String b s' => if Ascii.eqb a b then stripPrefix p' s' else None
      | EmptyString => None
      end
  end.

(** [\d] *)
Definition isDigit (c : ascii) : bool :=
  let n := N_of_ascii c in ((48 <=? n) && (n <=? 57))%N.

(** The longest run of digits at the head of a string, and what follows *)
Fixpoint spanDigits (s : string) : string * string :=
  match s with
  | String c s' =>
      if isDigit c then
        let '(ds, rest) := spanDigits s' in (String c ds, rest)
      else (EmptyString, s)
  | EmptyString => (EmptyString, EmptyString)
  end.

Fixpoint allChars (f : ascii → bool) (s : string) : bool :=
  match s with
  | String c s' => f c && allChars f s'
  | EmptyString => true
  end.

(** ** Numbers and strings *)

(** [String(n)] and the template literal [`${n}`] *)
Definition numToString (n : JsNum) : string :=
  match n with
  | NaN => "NaN"
  | Num z => pretty z
  end.

Definition digitValue (c : ascii) : option Z :=
  let n := N_of_ascii c in
  if ((48 <=? n) && (n <=? 57))%N then Some (Z.of_N (n - 48)) else None.

Fixpoint parseDigits (acc : Z) (s : string) : option Z :=
  match s with
  | String c s' =>
      match digitValue c with
      | Some d => parseDigits (10 * acc + d) s'
      | None => None
      end
  | EmptyString => Some acc
  end.

Definition unsignedDecimal (s : string) : JsNum :=
  match s with
  | EmptyString => NaN
  | _ => match parseDigits 0 s with Some z => Num z | None => NaN end
  end.

(** The conversion of a string to a Number, on the decimal integer literals:
    surrounding white space is dropped, the empty string is 0, an optionally
    signed run of digits is its value, and a text that is no numeric literal
    is NaN.  (A literal with a fraction, an exponent or a radix prefix denotes
    a number outside [JsNum]; the definition answers NaN for it.) *)
Definition StringToNumber (s : string) : JsNum :=
  match trim s with
  | EmptyString => Num 0
  | String "+" t => unsignedDecimal t
  | String "-" t =>
      match unsignedDecimal t with Num z => Num (- z) | NaN => NaN end
  | t => unsignedDecimal t
  end.

(** ** Conversions *)

(** [String(v)]; an array joins its elements with commas, a plain object is
    '[object Object]'. *)
Fixpoint ToString (v : JsValue) : string :=
  match v with
  | JUndefined => "undefined"
  | JNull => "null"
  | JBool true => "true"
  | JBool false => "false"
  | JNumber n => numToString n
  | JString s => s
  | JArray items =>
      (fix join (l : list JsValue) : string :=
         match l with
         | [] => ""
         | x :: rest =>
             let sx := match x with
                       | JUndefined | JNull => ""
                       | _ => ToString x
                       end in
             match rest with
             | [] => sx
             | _ => sx +:+ "," +:+ join rest
             end
         end) items
  | JObject _ => "[object Object]"
  end.

(** [Number(v)] *)
Definition ToNumber (v : JsValue) : JsNum :=
  match v with
  | JUndefined => NaN
  | JNull => Num 0
  | JBool true => Num 1
  | JBool false => Num 0
  | JNumber n => n
  | JString s => StringToNumber s
  | JArray _ | JObject _ => StringToNumber (ToString v)
  end.

(** The truth value of a Number in a condition: [n ? a : b] *)
Definition truthyNum (n : JsNum) : bool :=
  match n with
  | NaN => false
  | Num z => negb (z =? 0)
  end.

(** The truth value of any value in a condition *)
Definition truthy (v : JsValue) : bool :=
  match v with
  | JUndefined | JNull => false
  | JBool b => b
  | JNumber n => truthyNum n
  | JString s => negb (String.eqb s "")
  | JArray _ | JObject _ => true
  end.

(** [a || b] *)
Definition orElse (a b : JsValue) : JsValue := if truthy a then a else b.

(** [a ?? b] *)
Definition nullish (a b : JsValue) : JsValue :=
  match a with
  | JUndefined | JNull => b
  | _ => a
  end.

(** ** Members of objects *)

Fixpoint lookupMember (k : string) (ms : list (string * JsValue)) : option JsValue :=
  match ms with
  | (k', v) :: rest => if String.eqb k k' then Some v else lookupMember k rest
  | [] => None
  end.

(** An existing member keeps its place, a new one goes to the end. *)
Fixpoint setMember (k : string) (v : JsValue) (ms : list (string * JsValue))
  : list (string * JsValue) :=
  match ms with
  | (k', v') :: rest =>
      if String.eqb k k' then (k', v) :: rest else (k', v') :: setMember k v rest
  | [] => [(k, v)]
  end.

(** [o.k] and [o[k]] for the member names the programs read: the members of
    documents and the pin numbers on the state document.  The read throws on
    null and undefined; a value that is not an object has none of them.  (An
    array or a string indexed by a number, and the members that every object
    inherits, such as 'constructor', are not modelled: the documents that the
    programs index by number are objects, and no member or pin of a document
    has an inherited name.) *)
Definition getProp (o : JsValue) (k : string) : Completion JsValue :=
  match o with
  | JUndefined | JNull => Thrown
  | JObject ms => Normal (default JUndefined (lookupMember k ms))
  | _ => Normal JUndefined
  end.

(** [o[k] = v]: throws on null and undefined, and is silently dropped on a
    primitive (the programs run in sloppy mode). *)
Definition setProp (o : JsValue) (k : string) (v : JsValue) : Completion JsValue :=
  match o with
  | JUndefined | JNull => Thrown
  | JObject ms => Normal (JObject (setMember k v ms))
  | _ => Normal o
  end.

Definition isArray (v : JsValue) : bool :=
  match v with JArray _ => true | _ => false end.

Definition isObject (v : JsValue) : bool :=
  match v with JObject _ => true | _ => false end.

(** The values a [for ... of] or a [forEach] visits: the elements of an array
    ([for ... of] also walks the characters of a string); anything else is
    not iterable. *)
Fixpoint chars (s : string) : list JsValue :=
  match s with
  | String c s' => JString (String c EmptyString) :: chars s'
  | EmptyString => []
  end.

Definition iterate (v : JsValue) : Completion (list JsValue) :=
  match v with
  | JArray items => Normal items
  | JString s => Normal (chars s)
  | _ => Thrown
  end.

(** ** JSON *)

(** What [JSON.parse (JSON.stringify v)] is, when [JSON.stringify] yields a
    text at all: NaN and an undefined array element become null, an undefined
    member is left out.  At top level undefined has no text. *)
Fixpoint jsonImage (v : JsValue) : JsValue :=
  match v with
  | JUndefined => JNull
  | JNumber NaN => JNull
  | JArray items => JArray (map jsonImage items)
  | JObject ms =>
      JObject
        ((fix members (l : list (string * JsValue)) : list (string * JsValue) :=
            match l with
            | [] => []
            | (k, JUndefined) :: rest => members rest
            | (k, x) :: rest => (k, jsonImage x) :: members rest
            end) ms)
  | _ => v
  end.

Definition JSON_roundtrip (v : JsValue) : option JsValue :=
  match v with
  | JUndefined => None
  | _ => Some (jsonImage v)
  end.

(** A value that JSON represents as it is: no undefined and no NaN inside. *)
Fixpoint jsonRepresentable (v : JsValue) : bool :=
  match v with
  | JUndefined => false
  | JNumber NaN => false
  | JArray items => forallb jsonRepresentable items
  | JObject ms =>
      (fix members (l : list (string * JsValue)) : bool :=
         match l with
         | [] => true
         | (_, x) :: rest => jsonRepresentable x && members rest
         end) ms
  | _ => true
  end.

(** ** Bit operations *)

(** [ToInt32]: NaN is 0, an integer wraps to 32 bits, signed. *)
Definition ToInt32 (n : JsNum) : Z :=
  match n with
  | NaN => 0
  | Num z => (z + 2 ^ 31) mod 2 ^ 32 - 2 ^ 31
  end.

(** [a ^ b] *)
Definition bitXor (a b : JsNum) : JsNum :=
  Num (ToInt32 (Num (Z.lxor (ToInt32 a) (ToInt32 b)))).

(** ** Induction on values, through the lists of arrays and objects *)

Section JsValue_induction.

Variable P : JsValue → Prop.
Hypothesis P_undefined : P JUndefined.
Hypothesis P_null : P JNull.
Hypothesis P_bool : ∀ b, P (JBool b).
Hypothesis P_number : ∀ n, P (JNumber n).
Hypothesis P_string : ∀ s, P (JString s).
Hypothesis P_array : ∀ items, Forall P items → P (JArray items).
Hypothesis P_object : ∀ ms, Forall (λ kv, P kv.2) ms → P (JObject ms).

Fixpoint JsValue_nested_ind (v : JsValue) : P v :=
  match v with
  | JUndefined => P_undefined
  | JNull => P_null
  | JBool b => P_bool b
  | JNumber n => P_number n
  | JString s => P_string s
  | JArray items =>
      P_array items
        ((fix all (l : list JsValue) : Forall P l :=
            match l with
            | [] => @List.Forall_nil _ P
            | x :: rest => @List.Forall_cons _ P x rest (JsValue_nested_ind x) (all rest)
            end) items)
  | JObject ms =>
      P_object ms
        ((fix all (l : list (string * JsValue)) : Forall (λ kv, P kv.2) l :=
            match l with
            | [] => @List.Forall_nil _ _
            | kv :: rest =>
                @List.Forall_cons _ (λ kv, P kv.2) kv rest (JsValue_nested_ind kv.2) (all rest)
            end) ms)
  end.

End JsValue_induction.

End Js.

Import Js.

(** * Statements: state and exceptions *)

Module Stmt.

#[global] Instance Completion_ret : MRet Completion := λ A a, Normal a.
#[global] Instance Completion_bind : MBind Completion := λ A B k c,
  match c with
  | Normal a => k a
  | Thrown => Thrown
  end.

(** A statement over the process state [S]: it ends in a new state, normally
    or by throwing. *)
Definition M (S A : Type) : Type := S → S * Completion A.

#[global] Instance M_ret {S} : MRet (M S) := λ A a w, (w, Normal a).
#[global] Instance M_bind {S} : MBind (M S) := λ A B k m w,
  match m w with
  | (w', Normal a) => k a w'
  | (w', Thrown) => (w', Thrown)
  end.

Definition get {S} : M S S := λ w, (w, Normal w).
Definition modify {S} (f : S → S) : M S unit := λ w, (f w, Normal tt).
Definition throw {S A} : M S A := λ w, (w, Thrown).

(** An expression that may throw, inside a statement *)
Definition eval {S A} (c : Completion A) : M S A := λ w, (w, c).

(** [try { m } catch { h }] *)
Definition tryCatch {S A} (m h : M S A) : M S A := λ w,
  match m w with
  | (w', Normal a) => (w', Normal a)
  | (w', Thrown) => h w'
  end.

(** [try { m } catch {}] *)
Definition swallow {S} (m : M S unit) : M S unit := tryCatch m (mret tt).

(** A loop over the elements of a list, left to right; it stops at the first
    exception. *)
Fixpoint forEach {S A} (l : list A) (body : A → M S unit) : M S unit :=
  match l with
  | [] => mret tt
  | x :: rest => body x ;; forEach rest body
  end.

(** [l.map(f)] where [f] may throw *)
Fixpoint mapArray {A B} (f : A → Completion B) (l : list A) : Completion (list B) :=
  match l with
  | [] => Normal []
  | x :: rest => y ← f x; ys ← mapArray f rest; Normal (y :: ys)
  end.

(** A statement that keeps the relation [R] between the state it starts in
    and the state it ends in, whether it returns or throws *)
Definition preserves {S A} (R : S → S → Prop) (m : M S A) : Prop :=
  ∀ w, R w (m w).1.

(** Two states with the same [f] *)
Definition unchanged {S T} (f : S → T) (w w' : S) : Prop := f w' = f w.

End Stmt.

Import Stmt.

(** * What both servers share: files, broker messages, drivers *)

Module Host.

(** The text of a file, up to what [JSON.parse] makes of it: a text that is
    no JSON, or a text that parses to [doc]. *)
Inductive FileContent : Type :=
  | NotJson
  | Json (doc : JsValue).

(** [fs.readFileSync (file, 'utf8')]: throws when there is no such file. *)
Definition readFileSync (fs : gmap string FileContent) (file : string)
  : Completion FileContent :=
  match fs !! file with
  | Some raw => Normal raw
  | None => Thrown
  end.

(** [JSON.parse (raw)] *)
Definition JSON_parse (raw : FileContent) : Completion JsValue :=
  match raw with
  | Json doc => Normal doc
  | NotJson => Thrown
  end.

(** [JSON.stringify (data, null, 2)]: a text that parses to the JSON image of
    [data]; undefined has no text, and [fs.writeFileSync] then rejects its
    argument. *)
Definition JSON_stringify (data : JsValue) : Completion FileContent :=
  match data with
  | JUndefined => Thrown
  | _ => Normal (Json (jsonImage data))
  end.

(** [mqttClient.publish (topic, payload, { retain })] *)
Record Publish : Type := mkPublish {
  topic : string;
  payload : string;
  retain : bool
}.

(** The hardware behind the [Gpio] class: for each line, whether constructing,
    writing, reading, watching or releasing it throws.  The in-memory stand-in
    never throws. *)
Record Driver (K : Type) : Type := mkDriver {
  ctor_throws : K → bool;
  write_throws : K → bool;
  read_throws : K → bool;
  watch_throws : K → bool;
  release_throws : K → bool
}.
Arguments mkDriver {K}.
Arguments ctor_throws {K}.
Arguments write_throws {K}.
Arguments read_throws {K}.
Arguments watch_throws {K}.
Arguments release_throws {K}.

Definition mockDriver {K} : Driver K :=
  mkDriver (λ _, false) (λ _, false) (λ _, false) (λ _, false) (λ _, false).

(** [res.status (status).json (body)] *)
Record Response : Type := mkResponse {
  status : Z;
  body : JsValue
}.

End Host.

Import Host.

(** * The second server (src/unnamed/part_000) *)

Module V2.

Inductive Direction : Type := In | Out.

#[global] Instance Direction_eq_dec : EqDecision Direction.
Proof. solve_decision. Defined.

(** The one callback the server hands to [gpio.watch]: the closure over
    [number] that forwards a level to the sessions and to the broker. *)
Inductive Watcher : Type :=
  | ForwardInput (number : JsNum).

(** An instance of the [Gpio] class *)
Record Gpio : Type := mkGpio {
  gpio_number : JsNum;
  gpio_direction : Direction;
  gpio_value : JsNum;
  gpio_watchers : list Watcher
}.

Record Meta : Type := mkMeta {
  meta_number : JsNum;
  meta_direction : Direction;
  meta_label : JsValue
}.

(** A value of the runtime pin map: [{ gpio, meta }] *)
Record Entry : Type := mkEntry {
  gpio : Gpio;
  meta : Meta
}.

(** The Socket.IO messages of the server *)
Inductive Message : Type :=
  | Init (config state : JsValue)
  | Pin (number value : JsNum).

(** [io.emit] reaches every connected session, [socket.emit] one. *)
Inductive Emit : Type :=
  | ToAll (m : Message)
  | ToSocket (id : nat) (m : Message).

(** The environment of the process: [MQTT_PREFIX], whether [MQTT_URL] is set
    (and so [mqttClient] is not null), the driver behind [Gpio], and the files
    that [fs.writeFileSync] cannot write. *)
Record Env : Type := mkEnv {
  MQTT_PREFIX : string;
  mqttClient : bool;
  driver : Driver JsNum;
  write_fails : string → bool
}.

(** The process state: the globals [config], [savedState] and [pins], the
    files, and what was sent so far, oldest first. *)
Record World : Type := mkWorld {
  config : JsValue;
  savedState : JsValue;
  pins : gmap JsNum Entry;
  files : gmap string FileContent;
  emitted : list Emit;
  published : list Publish;
  subscribed : list string
}.

Definition set_config (c : JsValue) (w : World) : World :=
  mkWorld c (savedState w) (pins w) (files w) (emitted w) (published w) (subscribed w).
Definition set_savedState (s : JsValue) (w : World) : World :=
  mkWorld (config w) s (pins w) (files w) (emitted w) (published w) (subscribed w).
Definition set_pins (p : gmap JsNum Entry) (w : World) : World :=
  mkWorld (config w) (savedState w) p (files w) (emitted w) (published w) (subscribed w).
Definition set_files (f : gmap string FileContent) (w : World) : World :=
  mkWorld (config w) (savedState w) (pins w) f (emitted w) (published w) (subscribed w).
Definition set_emitted (e : list Emit) (w : World) : World :=
  mkWorld (config w) (savedState w) (pins w) (files w) e (published w) (subscribed w).
Definition set_published (p : list Publish) (w : World) : World :=
  mkWorld (config w) (savedState w) (pins w) (files w) (emitted w) p (subscribed w).
Definition set_subscribed (s : list string) (w : World) : World :=
  mkWorld (config w) (savedState w) (pins w) (files w) (emitted w) (published w) s.

Definition CONFIG_FILE : string := "gpio-config.json".
Definition STATE_FILE : string := "gpio-state.json".

(** [x ? 1 : 0] for a Number [x]: the level the server writes for it *)
Definition toBit (x : JsNum) : JsNum := if truthyNum x then Num 1 else Num 0.

(** ** Helpers *)

Definition readJsonSafe (fs : gmap string FileContent) (file : string)
    (fallback : JsValue) : JsValue :=
  match raw ← readFileSync fs file; JSON_parse raw with
  | Normal doc => doc
  | Thrown => fallback
  end.

Section Server.

Context (env : Env).

Definition writeJsonSafe (file : string) (data : JsValue) : M World unit :=
  raw ← eval (JSON_stringify data);
  if write_fails env file then throw
  else modify (λ w, set_files (<[file := raw]> (files w)) w).

Definition io_emit (m : Message) : M World unit :=
  modify (λ w, set_emitted (emitted w ++ [ToAll m]) w).

Definition socket_emit (id : nat) (m : Message) : M World unit :=
  modify (λ w, set_emitted (emitted w ++ [ToSocket id m]) w).

Definition publishMqtt (number value : JsNum) : M World unit :=
  if negb (mqttClient env) then mret tt
  else
    let topic := MQTT_PREFIX env +:+ "/" +:+ numToString number +:+ "/state" in
    let payload := if truthyNum value then "ON" else "OFF" in
    modify (λ w, set_published (published w ++ [mkPublish topic payload true]) w).

Definition subscribeMqttForPin (number : JsNum) : M World unit :=
  if negb (mqttClient env) then mret tt
  else
    let setTopic := MQTT_PREFIX env +:+ "/" +:+ numToString number +:+ "/set" in
    modify (λ w, set_subscribed (subscribed w ++ [setTopic]) w).

(** ** The [Gpio] class: the in-memory stand-in, over a driver that may throw

    The objects live in the pin map; a method call names its object by the
    key of the entry that holds it. *)

(** [new Gpio (number, direction)] *)
Definition newGpio (number : JsNum) (direction : Direction) : M World Gpio :=
  if ctor_throws (driver env) number then throw
  else mret (mkGpio number direction (Num 0) []).

(** The callback of a watcher, called as [cb (null, value)] *)
Definition runWatcher (cb : Watcher) (value : JsNum) : M World unit :=
  match cb with
  | ForwardInput number =>
      io_emit (Pin number value) ;;
      publishMqtt number value
  end.

(** [gpio.writeSync (v)]: [this.value = Number (v); this._emit ()] *)
Definition writeSync (key : JsNum) (v : JsNum) : M World unit :=
  w ← get;
  match pins w !! key with
  | Some e =>
      let g := gpio e in
      if write_throws (driver env) (gpio_number g) then throw
      else
        let g' := mkGpio (gpio_number g) (gpio_direction g) v (gpio_watchers g) in
        modify (set_pins (<[key := mkEntry g' (meta e)]> (pins w))) ;;
        forEach (gpio_watchers g) (λ cb, runWatcher cb v)
  | None => mret tt
  end.

(** [gpio.readSync ()] *)
Definition readSync (g : Gpio) : Completion JsNum :=
  if read_throws (driver env) (gpio_number g) then Thrown
  else Normal (gpio_value g).

(** [gpio.watch (cb)] *)
Definition watch (key : JsNum) (cb : Watcher) : M World unit :=
  w ← get;
  match pins w !! key with
  | Some e =>
      let g := gpio e in
      if watch_throws (driver env) (gpio_number g) then throw
      else
        let g' := mkGpio (gpio_number g) (gpio_direction g) (gpio_value g)
                         (gpio_watchers g ++ [cb]) in
        modify (set_pins (<[key := mkEntry g' (meta e)]> (pins w)))
  | None => mret tt
  end.

(** [gpio.unwatchAll (); gpio.unexport ()] *)
Definition release (key : JsNum) : M World unit :=
  w ← get;
  match pins w !! key with
  | Some e =>
      let g := gpio e in
      if release_throws (driver env) (gpio_number g) then throw
      else
        let g' := mkGpio (gpio_number g) (gpio_direction g) (gpio_value g) [] in
        modify (set_pins (<[key := mkEntry g' (meta e)]> (pins w)))
  | None => mret tt
  end.

(** ** The runtime pin map *)

(** [Number (savedState[number] ?? 0) ? 1 : 0] *)
Definition initialValue (saved : JsValue) (number : JsNum) : Completion JsNum :=
  sv ← getProp saved (numToString number);
  Normal (toBit (ToNumber (nullish sv (JNumber (Num 0))))).

(** [s.toLowerCase ()] on a value: only a string has the method. *)
Definition callToLowerCase (v : JsValue) : Completion string :=
  match v with
  | JString s => Normal (toLowerCase s)
  | _ => Thrown
  end.

(** The body of the loop of [setupPins] *)
Definition setupPin (p : JsValue) : M World unit :=
  pn ← eval (getProp p "number");
  let number := ToNumber pn in
  pd ← eval (getProp p "direction");
  lower ← eval (callToLowerCase (orElse pd (JString "out")));
  let direction := if String.eqb lower "in" then In else Out in
  pl ← eval (getProp p "label");
  let label := orElse pl (JString ("GPIO " +:+ numToString number)) in
  g ← newGpio number direction;
  let meta := mkMeta number direction label in
  modify (λ w, set_pins (<[number := mkEntry g meta]> (pins w)) w) ;;
  match direction with
  | Out =>
      w ← get;
      initial ← eval (initialValue (savedState w) number);
      swallow (writeSync number initial) ;;
      publishMqtt number initial
  | In =>
      swallow (watch number (ForwardInput number))
  end ;;
  subscribeMqttForPin number.

Definition getCurrentState (w : World) : Completion JsValue :=
  foldl
    (λ acc '(num, e),
       state ← acc;
       x ← match readSync (gpio e) with
           | Normal x => Normal x
           | Thrown =>
               sv ← getProp (savedState w) (numToString num);
               Normal (ToNumber (nullish sv (JNumber (Num 0))))
           end;
       setProp state (numToString num) (JNumber x))
    (Normal (JObject []))
    (map_to_list (pins w)).

Definition broadcastFullState : M World unit :=
  w ← get;
  state ← eval (getCurrentState w);
  io_emit (Init (config w) state).

(** The entries that [for (const p of config.pins || [])] visits *)
Definition configPins (config : JsValue) : Completion (list JsValue) :=
  cp ← getProp config "pins";
  iterate (orElse cp (JArray [])).

Definition setupPins : M World unit :=
  w ← get;
  forEach (map_to_list (pins w)) (λ ke, swallow (release ke.1)) ;;
  modify (set_pins ∅) ;;
  w ← get;
  ps ← eval (configPins (config w));
  forEach ps setupPin ;;
  broadcastFullState.

(** ** The config and state API *)

Definition get_api_config : M World Response :=
  w ← get;
  mret (mkResponse 200 (config w)).

Definition sanitizePin (p : JsValue) : Completion JsValue :=
  pn ← getProp p "number";
  pl ← getProp p "label";
  pd ← getProp p "direction";
  Normal (JObject
    [("number", JNumber (ToNumber pn));
     ("label", JString (ToString (orElse pl (JString ""))));
     ("direction",
      JString (if String.eqb (toLowerCase (ToString (orElse pd (JString "out")))) "in"
               then "in" else "out"))]).

Definition post_api_config (newConfig : JsValue) : M World Response :=
  let invalid :=
    mkResponse 400
      (JObject [("error", JString "Invalid config: expected { pins: [...] }")]) in
  if negb (truthy newConfig) then mret invalid
  else
    ps ← eval (getProp newConfig "pins");
    match ps with
    | JArray items =>
        sanitized ← eval (mapArray sanitizePin items);
        newConfig' ← eval (setProp newConfig "pins" (JArray sanitized));
        modify (set_config newConfig') ;;
        written ← tryCatch (writeJsonSafe CONFIG_FILE newConfig' ;; mret true)
                           (mret false);
        if written : bool then
          setupPins ;;
          mret (mkResponse 200
                  (JObject [("ok", JBool true); ("config", newConfig')]))
        else
          (* the member 'details', the message of the exception, is left out *)
          mret (mkResponse 500
                  (JObject [("error", JString "Failed to write gpio-config.json")]))
    | _ => mret invalid
    end.

Definition get_api_state : M World Response :=
  w ← get;
  state ← eval (getCurrentState w);
  mret (mkResponse 200 (JObject [("state", state)])).

(** ** Socket.IO *)

(** [io.on ('connection', ...)]: the new session gets the snapshot. *)
Definition on_connection (id : nat) : M World unit :=
  w ← get;
  state ← eval (getCurrentState w);
  socket_emit id (Init (config w) state).

(** [socket.on ('setPin', ({ number, value }) => ...)] *)
Definition on_setPin (msg : JsValue) : M World unit :=
  number ← eval (getProp msg "number");
  value ← eval (getProp msg "value");
  w ← get;
  match pins w !! ToNumber number with
  | None => mret tt
  | Some entry =>
      let meta := meta entry in
      match meta_direction meta with
      | In => mret tt
      | Out =>
          let v := toBit (ToNumber value) in
          swallow (writeSync (ToNumber number) v) ;;
          w ← get;
          saved ← eval (setProp (savedState w) (numToString (meta_number meta))
                                (JNumber v));
          modify (set_savedState saved) ;;
          swallow (writeJsonSafe STATE_FILE saved) ;;
          io_emit (Pin (meta_number meta) v) ;;
          publishMqtt (meta_number meta) v
      end
  end.

(** ** MQTT inbound control *)

(** The regular expression [^<prefix>/(\d+)/set$], the prefix taken
    literally: the digits it captures. *)
Definition matchSetTopic (prefix topic : string) : option string :=
  rest ← stripPrefix (prefix +:+ "/") topic;
  let '(ds, rest') := spanDigits rest in
  match ds with
  | EmptyString => None
  | _ => if String.eqb rest' "/set" then Some ds else None
  end.

(** [s === 'ON' || s === '1' ? 1 : 0] for [s] the payload text, trimmed and
    in upper case *)
Definition payloadValue (payload : string) : JsNum :=
  let s := toUpperCase (trim payload) in
  if String.eqb s "ON" || String.eqb s "1" then Num 1 else Num 0.

(** [mqttClient.on ('message', (topic, payload) => ...)], installed when there
    is a client; [payload] is the text of the message. *)
Definition on_mqtt_message (topic payload : string) : M World unit :=
  if negb (mqttClient env) then mret tt
  else
    match matchSetTopic (MQTT_PREFIX env) topic with
    | None => mret tt
    | Some digits =>
        let number := StringToNumber digits in
        w ← get;
        match pins w !! number with
        | None => mret tt
        | Some entry =>
            match meta_direction (meta entry) with
            | In => mret tt
            | Out =>
                let v := payloadValue payload in
                swallow (writeSync number v) ;;
                w ← get;
                saved ← eval (setProp (savedState w) (numToString number) (JNumber v));
                modify (set_savedState saved) ;;
                swallow (writeJsonSafe STATE_FILE saved) ;;
                io_emit (Pin number v) ;;
                publishMqtt number v
            end
        end
    end.

(** ** Hardware *)

(** A level change on a watched line: the driver calls the watchers with the
    new level. *)
Definition on_input_change (key : JsNum) (value : JsNum) : M World unit :=
  w ← get;
  match pins w !! key with
  | Some e =>
      let g := gpio e in
      let g' := mkGpio (gpio_number g) (gpio_direction g) value (gpio_watchers g) in
      modify (set_pins (<[key := mkEntry g' (meta e)]> (pins w))) ;;
      forEach (gpio_watchers g) (λ cb, runWatcher cb value)
  | None => mret tt
  end.

(** ** Start *)

(** The module's top level: both documents are read with [readJsonSafe]. *)
Definition loadConfig (fs : gmap string FileContent) : JsValue :=
  readJsonSafe fs CONFIG_FILE (JObject [("pins", JArray [])]).

Definition loadState (fs : gmap string FileContent) : JsValue :=
  readJsonSafe fs STATE_FILE (JObject []).

Definition boot (fs : gmap string FileContent) : World :=
  mkWorld (loadConfig fs) (loadState fs) ∅ fs [] [] [].

(** [server.listen (PORT, () => setupPins ())] *)
Definition listen : M World unit := setupPins.

(** ** The event loop *)

(** What the process is woken up by, after its start *)
Inductive Event : Type :=
  | Listening
  | Connection (id : nat)
  | SetPin (msg : JsValue)
  | MqttMessage (topic payload : string)
  | InputChange (key value : JsNum)
  | GetConfig
  | PostConfig (body : JsValue)
  | GetState.

Definition handle (ev : Event) : M World unit :=
  match ev with
  | Listening => listen
  | Connection id => on_connection id
  | SetPin msg => on_setPin msg
  | MqttMessage topic payload => on_mqtt_message topic payload
  | InputChange key value => on_input_change key value
  | GetConfig => get_api_config ;; mret tt
  | PostConfig body => post_api_config body ;; mret tt
  | GetState => get_api_state ;; mret tt
  end.

(** The world after a run of events, each handled to its end; an exception
    ends its handler only. *)
Definition run (evs : list Event) (w : World) : World :=
  foldl (λ w ev, (handle ev w).1) w evs.

(** ** Stop *)

(** [process.on ('SIGINT', ...)]: every adapter is released, each inside its
    own [try]; the process exits after it. *)
Definition on_SIGINT : M World unit :=
  w ← get;
  forEach (map_to_list (pins w)) (λ ke, swallow (release ke.1)).

End Server.

(** ** The invariant of the pin map, and the handlers in closed form *)

(** Every entry sits under its own number, its adapter and its meta agree, and
    an output has no watcher. *)
Definition registry_ok (w : World) : Prop :=
  ∀ n e, pins w !! n = Some e →
    meta_number (meta e) = n ∧
    gpio_number (gpio e) = n ∧
    gpio_direction (gpio e) = meta_direction (meta e) ∧
    (meta_direction (meta e) = Out → gpio_watchers (gpio e) = []).

(** The state in memory is an object, as the server leaves it. *)
Definition state_ok (w : World) : Prop := isObject (savedState w) = true.

(** The pin [n] is no output: it has no entry, or an entry of direction 'in'. *)
Definition notOutput (w : World) (n : JsNum) : Prop :=
  pins w !! n = None ∨ ∃ e, pins w !! n = Some e ∧ meta_direction (meta e) = In.

(** The entry [e] after a write of [v] *)
Definition withLevel (e : Entry) (v : JsNum) : Entry :=
  mkEntry (mkGpio (gpio_number (gpio e)) (gpio_direction (gpio e)) v
                  (gpio_watchers (gpio e))) (meta e).

Definition stateTopic (env : Env) (number : JsNum) : string :=
  MQTT_PREFIX env +:+ "/" +:+ numToString number +:+ "/state".

Definition setTopic (env : Env) (number : JsNum) : string :=
  MQTT_PREFIX env +:+ "/" +:+ numToString number +:+ "/set".

Definition onOff (value : JsNum) : string :=
  if truthyNum value then "ON" else "OFF".

(** The world after an inbound request has set the output [n], of entry [e],
    to [v], when the state is the object of members [ms] *)
Definition applyOutput (env : Env) (n v : JsNum) (e : Entry)
    (ms : list (string * JsValue)) (w : World) : World :=
  let saved := JObject (setMember (numToString n) (JNumber v) ms) in
  mkWorld (config w) saved
    (if write_throws (driver env) n then pins w else <[n := withLevel e v]> (pins w))
    (if write_fails env STATE_FILE then files w
     else <[STATE_FILE := Json (jsonImage saved)]> (files w))
    (emitted w ++ [ToAll (Pin n v)])
    (if mqttClient env
     then published w ++ [mkPublish (stateTopic env n) (onOff v) true]
     else published w)
    (subscribed w).

(** What a request for the output [n] with level [c] leaves behind, [r] being
    the outcome of its handler from the world [w]: the handler returns, the
    adapter reads [c], the state file maps [n] to [c], and one delta was sent
    to all sessions. *)
Definition outputDone (env : Env) (w : World) (n c : JsNum)
    (r : World * Completion unit) : Prop :=
  r.2 = Normal tt ∧
  (∃ e, pins r.1 !! n = Some e ∧ readSync env (gpio e) = Normal c) ∧
  (∃ doc, files r.1 !! STATE_FILE = Some (Json doc) ∧
          getProp doc (numToString n) = Normal (JNumber c)) ∧
  emitted r.1 = (emitted w ++ [ToAll (Pin n c)])%list.


(** [Number (savedState[number] ?? 0) ? 1 : 0] when the state is an object *)
Definition initialLevel (ms : list (string * JsValue)) (number : JsNum) : JsNum :=
  toBit (ToNumber (nullish (default JUndefined (lookupMember (numToString number) ms))
                           (JNumber (Num 0)))).

(** A member of a config entry, undefined when absent *)
Definition member (p : JsValue) (k : string) : JsValue :=
  match getProp p k with
  | Normal v => v
  | Thrown => JUndefined
  end.

Definition pinNumber (p : JsValue) : JsNum := ToNumber (member p "number").

Definition pinDirection (p : JsValue) : Direction :=
  match orElse (member p "direction") (JString "out") with
  | JString s => if String.eqb (toLowerCase s) "in" then In else Out
  | _ => Out
  end.

Definition pinLabel (p : JsValue) : JsValue :=
  orElse (member p "label") (JString ("GPIO " +:+ numToString (pinNumber p))).

(** The entries that [setupPins] takes without throwing: not null, a
    direction that is a string or falsy, a line the driver can open. *)
Definition pinAccepted (env : Env) (p : JsValue) : bool :=
  match p with
  | JUndefined | JNull => false
  | _ =>
      match orElse (member p "direction") (JString "out") with
      | JString _ => negb (ctor_throws (driver env) (pinNumber p))
      | _ => false
      end
  end.

(** The entry that [setupPins] builds for a pin *)
Definition freshEntry (env : Env) (ms : list (string * JsValue))
    (number : JsNum) (direction : Direction) (label : JsValue) : Entry :=
  mkEntry
    (mkGpio number direction
       (match direction with
        | Out => if write_throws (driver env) number then Num 0
                 else initialLevel ms number
        | In => Num 0
        end)
       (match direction with
        | In => if watch_throws (driver env) number then []
                else [ForwardInput number]
        | Out => []
        end))
    (mkMeta number direction label).

(** The world after one round of the loop of [setupPins] *)
Definition pinInstalled (env : Env) (ms : list (string * JsValue))
    (number : JsNum) (direction : Direction) (label : JsValue) (w : World) : World :=
  mkWorld (config w) (savedState w)
    (<[number := freshEntry env ms number direction label]> (pins w))
    (files w) (emitted w)
    (match direction with
     | Out =>
         if mqttClient env
         then published w ++
              [mkPublish (stateTopic env number) (onOff (initialLevel ms number)) true]
         else published w
     | In => published w
     end)
    (if mqttClient env then subscribed w ++ [setTopic env number] else subscribed w).

(** The world after the whole loop, over accepted entries *)
Definition installAll (env : Env) (ms : list (string * JsValue))
    (ps : list JsValue) (w : World) : World :=
  foldl (λ w p, pinInstalled env ms (pinNumber p) (pinDirection p) (pinLabel p) w) w ps.

(** What [getCurrentState] records for an entry: the level read, or the saved
    value when the read throws *)
Definition snapshotValue (env : Env) (ms : list (string * JsValue))
    (num : JsNum) (e : Entry) : JsNum :=
  match readSync env (gpio e) with
  | Normal x => x
  | Thrown =>
      ToNumber (nullish (default JUndefined (lookupMember (numToString num) ms))
                        (JNumber (Num 0)))
  end.

Definition snapshotMembers (env : Env) (ms : list (string * JsValue))
    (l : list (JsNum * Entry)) (acc : list (string * JsValue)) : list (string * JsValue) :=
  foldl (λ acc '(num, e),
           setMember (numToString num) (JNumber (snapshotValue env ms num e)) acc)
        acc l.

(** The world after [setupPins] *)
Definition rebuilt (env : Env) (ms : list (string * JsValue))
    (ps : list JsValue) (w : World) : World :=
  let w1 := installAll env ms ps (set_pins ∅ w) in
  set_emitted
    (emitted w1 ++
     [ToAll (Init (config w1)
                  (JObject (snapshotMembers env ms (map_to_list (pins w1)) [])))])
    w1.

(** What a rebuild leaves for every entry: the entry is the one built for its
    number, and for an output the initial value went to the broker, when
    there is one. *)
Definition built (env : Env) (ms : list (string * JsValue)) (w : World) : Prop :=
  ∀ n e, pins w !! n = Some e →
    e = freshEntry env ms n (meta_direction (meta e)) (meta_label (meta e)) ∧
    (meta_direction (meta e) = Out → mqttClient env = true →
     mkPublish (stateTopic env n) (onOff (initialLevel ms n)) true ∈ published w).




(** A broker message as [publishMqtt] sends them: retained, on the state topic
    of a number, 'ON' or 'OFF' *)
Definition statePublish (env : Env) (m : Publish) : Prop :=
  retain m = true ∧ ∃ n v, topic m = stateTopic env n ∧ payload m = onOff v.

(** The world after [h] grew the list of broker messages by messages of
    [publishMqtt] only *)
Definition publishedMore (env : Env) (w w' : World) : Prop :=
  ∃ l, published w' = (published w ++ l)%list ∧ Forall (statePublish env) l.

(** An entry that the config surface hands on: a number, a text and one of
    the two directions *)
Definition sanitized (q : JsValue) : Prop :=
  ∃ n l d, q = JObject [("number", JNumber n); ("label", JString l);
                       ("direction", JString d)] ∧ (d = "in" ∨ d = "out").

(** An adapter after [unwatchAll], when the driver lets go of its line *)
Definition released (env : Env) (e : Entry) : Entry :=
  if release_throws (driver env) (gpio_number (gpio e)) then e
  else mkEntry (mkGpio (gpio_number (gpio e)) (gpio_direction (gpio e))
                       (gpio_value (gpio e)) []) (meta e).

End V2.

(** * The first server (src/server.js) *)

Module V1.

(** The callback handed to [gpio.watch], a closure over [number] *)
Inductive Watcher : Type :=
  | ForwardInput (number : JsValue).

(** An instance of onoff's [Gpio].  The library is not part of the
    repository; a line is modelled like the in-memory stand-in of the second
    server: it keeps the level last written and reads it back, unless the
    driver throws. *)
Record Gpio : Type := mkGpio {
  gpio_number : JsValue;
  gpio_direction : JsValue;
  gpio_value : JsNum;
  gpio_watchers : list Watcher
}.

(** A value of [pins]: [{ gpio, label, direction }] *)
Record Entry : Type := mkEntry {
  gpio : Gpio;
  label : JsValue;
  direction : JsValue
}.

Record Env : Type := mkEnv {
  driver : Driver string;
  write_fails : string → bool
}.

(** The process state: [config], [savedState], the object [pins] (keyed by
    property name), the files, the 'status' objects sent to all sessions, the
    broker messages and subscriptions, oldest first. *)
Record World : Type := mkWorld {
  config : JsValue;
  savedState : JsValue;
  pins : gmap string Entry;
  files : gmap string FileContent;
  emitted : list JsValue;
  published : list Publish;
  subscribed : list string
}.

Definition set_config (c : JsValue) (w : World) : World :=
  mkWorld c (savedState w) (pins w) (files w) (emitted w) (published w) (subscribed w).
Definition set_savedState (s : JsValue) (w : World) : World :=
  mkWorld (config w) s (pins w) (files w) (emitted w) (published w) (subscribed w).
Definition set_pins (p : gmap string Entry) (w : World) : World :=
  mkWorld (config w) (savedState w) p (files w) (emitted w) (published w) (subscribed w).
Definition set_files (f : gmap string FileContent) (w : World) : World :=
  mkWorld (config w) (savedState w) (pins w) f (emitted w) (published w) (subscribed w).
Definition set_emitted (e : list JsValue) (w : World) : World :=
  mkWorld (config w) (savedState w) (pins w) (files w) e (published w) (subscribed w).
Definition set_published (p : list Publish) (w : World) : World :=
  mkWorld (config w) (savedState w) (pins w) (files w) (emitted w) p (subscribed w).
Definition set_subscribed (s : list string) (w : World) : World :=
  mkWorld (config w) (savedState w) (pins w) (files w) (emitted w) (published w) s.

Definition CONFIG_FILE : string := "gpio-config.json".
Definition STATE_FILE : string := "gpio-state.json".

(** ** Loading, at the module's top level *)

(** [JSON.parse (fs.readFileSync (CONFIG_FILE, 'utf8'))], outside any [try] *)
Definition loadConfig (fs : gmap string FileContent) : Completion JsValue :=
  raw ← readFileSync fs CONFIG_FILE;
  JSON_parse raw.

(** The same for the state, inside [try ... catch] with [{}] *)
Definition loadState (fs : gmap string FileContent) : JsValue :=
  match raw ← readFileSync fs STATE_FILE; JSON_parse raw with
  | Normal doc => doc
  | Thrown => JObject []
  end.

Definition boot (fs : gmap string FileContent) : Completion World :=
  config ← loadConfig fs;
  Normal (mkWorld config (loadState fs) ∅ fs [] [] []).

Section Server.

Context (env : Env).

(** ** The [Gpio] class *)

Definition line (g : Gpio) : string := ToString (gpio_number g).

Definition newGpio (number direction : JsValue) : Completion Gpio :=
  if ctor_throws (driver env) (ToString number) then Thrown
  else Normal (mkGpio number direction (Num 0) []).

Definition writeSync (g : Gpio) (v : JsValue) : Completion Gpio :=
  if write_throws (driver env) (line g) then Thrown
  else Normal (mkGpio (gpio_number g) (gpio_direction g) (ToNumber v) (gpio_watchers g)).

Definition readSync (g : Gpio) : Completion JsNum :=
  if read_throws (driver env) (line g) then Thrown
  else Normal (gpio_value g).

Definition watch (g : Gpio) (cb : Watcher) : Completion Gpio :=
  if watch_throws (driver env) (line g) then Thrown
  else Normal (mkGpio (gpio_number g) (gpio_direction g) (gpio_value g)
                      (gpio_watchers g ++ [cb])).

(** [gpio.unwatchAll (); gpio.unexport ()] *)
Definition release (g : Gpio) : Completion Gpio :=
  if release_throws (driver env) (line g) then Thrown
  else Normal (mkGpio (gpio_number g) (gpio_direction g) (gpio_value g) []).

(** [v === 'out'] and [v === 'in'] *)
Definition strictEqString (v : JsValue) (s : string) : bool :=
  match v with
  | JString t => String.eqb t s
  | _ => false
  end.

(** ** The pin map *)

(** The callback of [config.pins.forEach] in [setupGpioPins] *)
Definition setupGpioPin (p : JsValue) : M World unit :=
  number ← eval (getProp p "number");
  label ← eval (getProp p "label");
  direction ← eval (getProp p "direction");
  g ← eval (newGpio number direction);
  g' ← (if strictEqString direction "out" then
          w ← get;
          sv ← eval (getProp (savedState w) (ToString number));
          eval (writeSync g (nullish sv (JNumber (Num 0))))
        else if strictEqString direction "in" then
          eval (watch g (ForwardInput number))
        else mret g);
  modify (λ w, set_pins (<[ToString number := mkEntry g' label direction]> (pins w)) w).

(** [a.forEach (...)]: only an array has the method. *)
Definition arrayItems (a : JsValue) : Completion (list JsValue) :=
  match a with
  | JArray items => Normal items
  | _ => Thrown
  end.

Definition setupGpioPins : M World unit :=
  modify (λ w,
    set_pins ((λ e, match release (gpio e) with
                    | Normal g' => mkEntry g' (label e) (direction e)
                    | Thrown => e
                    end) <$> pins w) w) ;;
  modify (set_pins ∅) ;;
  w ← get;
  cp ← eval (getProp (config w) "pins");
  ps ← eval (arrayItems cp);
  forEach ps setupGpioPin.

(** [mqttClient.publish (topic, payload)]: not retained *)
Definition publish (topic payload : string) : M World unit :=
  modify (λ w, set_published (published w ++ [mkPublish topic payload false]) w).

(** [mqttClient.on ('connect', ...)] *)
Definition on_mqtt_connect : M World unit :=
  w ← get;
  cp ← eval (getProp (config w) "pins");
  ps ← eval (arrayItems cp);
  forEach ps (λ pin,
    number ← eval (getProp pin "number");
    modify (λ w, set_subscribed
                   (subscribed w ++ ["home/gpio/" +:+ ToString number +:+ "/set"]) w)).

Definition emitStatus : M World unit :=
  w ← get;
  status ← eval (foldl
    (λ acc '(pin, obj),
       status ← acc;
       value ← readSync (gpio obj);
       setProp status pin
         (JObject [("value", JNumber value); ("label", label obj);
                   ("direction", direction obj)]))
    (Normal (JObject []))
    (map_to_list (pins w)));
  modify (λ w, set_emitted (emitted w ++ [status]) w).

Definition saveState (pin : string) (value : JsNum) : M World unit :=
  w ← get;
  saved ← eval (setProp (savedState w) pin (JNumber value));
  modify (set_savedState saved) ;;
  raw ← eval (JSON_stringify saved);
  if write_fails env STATE_FILE then throw
  else modify (λ w, set_files (<[STATE_FILE := raw]> (files w)) w).

(** The callback of a watcher, called by the driver as [cb (err, value)]
    with no error on a level change of an input *)
Definition runWatcher (cb : Watcher) (value : JsNum) : M World unit :=
  match cb with
  | ForwardInput number =>
      emitStatus ;;
      publish ("home/gpio/" +:+ ToString number +:+ "/state")
              (if truthyNum value then "ON" else "OFF")
  end.

Definition on_input_change (pin : string) (value : JsNum) : M World unit :=
  w ← get;
  match pins w !! pin with
  | Some obj =>
      let g := gpio obj in
      let g' := mkGpio (gpio_number g) (gpio_direction g) value (gpio_watchers g) in
      modify (set_pins (<[pin := mkEntry g' (label obj) (direction obj)]> (pins w))) ;;
      forEach (gpio_watchers g) (λ cb, runWatcher cb value)
  | None => mret tt
  end.

(** The entry behind [pins[pin] && pins[pin].direction === 'out'].  (A name
    inherited from [Object.prototype] is no pin: its value has no direction
    'out', like a name that is absent.) *)
Definition outEntry (w : World) (pin : string) : option Entry :=
  match pins w !! pin with
  | Some obj => if strictEqString (direction obj) "out" then Some obj else None
  | None => None
  end.

(** [pins[pin].gpio.writeSync (value)]: the object is changed in place. *)
Definition writePin (pin : string) (obj : Entry) (value : JsNum) : M World unit :=
  g' ← eval (writeSync (gpio obj) (JNumber value));
  modify (λ w, set_pins (<[pin := mkEntry g' (label obj) (direction obj)]> (pins w)) w).

(** ** MQTT inbound *)

(** The regular expression [/home\/gpio\/(\d+)\/set/] at the head of a text *)
Definition matchSetHere (s : string) : option string :=
  rest ← stripPrefix "home/gpio/" s;
  let '(ds, rest') := spanDigits rest in
  match ds with
  | EmptyString => None
  | _ => _ ← stripPrefix "/set" rest'; Some ds
  end.

(** The first match anywhere in the topic: the expression is not anchored. *)
Fixpoint searchSetTopic (topic : string) : option string :=
  match matchSetHere topic with
  | Some ds => Some ds
  | None =>
      match topic with
      | String _ rest => searchSetTopic rest
      | EmptyString => None
      end
  end.

(** [message.toString () === 'ON' ? 1 : 0] *)
Definition payloadValue (message : string) : JsNum :=
  if String.eqb message "ON" then Num 1 else Num 0.

Definition on_mqtt_message (topic message : string) : M World unit :=
  match searchSetTopic topic with
  | None => mret tt
  | Some pin =>
      let value := payloadValue message in
      w ← get;
      match outEntry w pin with
      | None => mret tt
      | Some obj =>
          writePin pin obj value ;;
          saveState pin value ;;
          emitStatus ;;
          publish ("home/gpio/" +:+ pin +:+ "/state")
                  (if truthyNum value then "ON" else "OFF")
      end
  end.

(** ** Socket.IO *)

Definition on_connection : M World unit := emitStatus.

(** [socket.on ('toggle', (pin) => ...)]; [pin] names a property of [pins]. *)
Definition on_toggle (pin : JsValue) : M World unit :=
  let key := ToString pin in
  w ← get;
  match outEntry w key with
  | None => mret tt
  | Some obj =>
      level ← eval (readSync (gpio obj));
      let newValue := bitXor level (Num 1) in
      writePin key obj newValue ;;
      saveState key newValue ;;
      emitStatus ;;
      publish ("home/gpio/" +:+ key +:+ "/state")
              (if truthyNum newValue then "ON" else "OFF")
  end.

(** ** The config API *)

Definition get_api_config : M World Response :=
  w ← get;
  mret (mkResponse 200 (config w)).

Definition post_api_config (newConfig : JsValue) : M World Response :=
  ps ← eval (getProp newConfig "pins");
  if negb (isArray ps) then
    mret (mkResponse 400
            (JObject [("error", JString "Invalid config format: missing pins[]")]))
  else
    tryCatch
      (raw ← eval (JSON_stringify newConfig);
       (if write_fails env CONFIG_FILE then throw
        else modify (λ w, set_files (<[CONFIG_FILE := raw]> (files w)) w)) ;;
       modify (set_config newConfig) ;;
       setupGpioPins ;;
       mret (mkResponse 200 (JObject [("success", JBool true)])))
      (mret (mkResponse 500 (JObject [("error", JString "Failed to save config")]))).

End Server.

(** ** Summaries *)

(** The pin named [pin] is no output: no entry, or direction 'in'. *)
Definition notOutput (w : World) (pin : string) : Prop :=
  pins w !! pin = None ∨
  ∃ obj, pins w !! pin = Some obj ∧ direction obj = JString "in".

(** The entry [obj] after a write of [v] *)
Definition withLevel (obj : Entry) (v : JsNum) : Entry :=
  mkEntry (mkGpio (gpio_number (gpio obj)) (gpio_direction (gpio obj)) v
                  (gpio_watchers (gpio obj)))
          (label obj) (direction obj).

(** The world in which a toggle stops to touch the adapter and the state:
    after [saveState], before [emitStatus]. *)
Definition toggled (pin : string) (obj : Entry) (ms : list (string * JsValue))
    (w : World) : World :=
  let newValue := bitXor (gpio_value (gpio obj)) (Num 1) in
  let saved := JObject (setMember pin (JNumber newValue) ms) in
  mkWorld (config w) saved (<[pin := withLevel obj newValue]> (pins w))
          (<[STATE_FILE := Json (jsonImage saved)]> (files w))
          (emitted w) (published w) (subscribed w).

Definition stateTopic (pin : string) : string := "home/gpio/" +:+ pin +:+ "/state".

Definition setTopic (pin : string) : string := "home/gpio/" +:+ pin +:+ "/set".

Definition onOff (value : JsNum) : string :=
  if truthyNum value then "ON" else "OFF".

(** The number of a config entry as the text that names it in [pins] and in
    its topics *)
Definition pinKey (p : JsValue) : string :=
  match getProp p "number" with
  | Normal number => ToString number
  | Thrown => ""
  end.

(** What [emitStatus] reports for an entry whose line can be read *)
Definition statusEntry (obj : Entry) : JsValue :=
  JObject [("value", JNumber (gpio_value (gpio obj)));
           ("label", label obj); ("direction", direction obj)].

(** The world after the output [pin], of entry [obj], was written with [v]
    and the state saved in memory, before the state file is written *)
Definition written (pin : string) (obj : Entry) (v : JsNum)
    (ms : list (string * JsValue)) (w : World) : World :=
  set_savedState (JObject (setMember pin (JNumber v) ms))
    (set_pins (<[pin := withLevel obj v]> (pins w)) w).

(** What 'toggle' and the message handler run on an output, once they have
    its entry and the value to write *)
Definition setOutput (env : Env) (pin : string) (obj : Entry) (value : JsNum)
    : M World unit :=
  writePin env pin obj value ;;
  saveState env pin value ;;
  emitStatus env ;;
  publish (stateTopic pin) (onOff value).

(** The same world after the state file took the write *)
Definition saved (pin : string) (obj : Entry) (v : JsNum)
    (ms : list (string * JsValue)) (w : World) : World :=
  set_files
    (<[STATE_FILE := Json (jsonImage (JObject (setMember pin (JNumber v) ms)))]> (files w))
    (written pin obj v ms w).

End V1.

(** * The words of the specification, for comparison *)

Module Spec.


(** 'A payload case-insensitively equal to ON or equal to 1 maps to 1, and
    any other payload maps to 0.' *)
Definition payloadValue (payload : string) : JsNum :=
  if String.eqb (toUpperCase payload) "ON" || String.eqb payload "1"
  then Num 1 else Num 0.


(** A file that is missing or does not parse *)
Definition unreadable (fs : gmap string FileContent) (file : string) : Prop :=
  fs !! file = None ∨ fs !! file = Some NotJson.

(** A posted document with a 'pins' member that is a sequence *)
Definition hasPinsArray (body : JsValue) : bool :=
  match getProp body "pins" with
  | Normal (JArray _) => true
  | _ => false
  end.

End Spec.

(** * The scenario of the specification: one output, pin 17 *)

Module Scenario.

(** [{ pins: [{ number: 17, label: "LED", direction: "out" }] }] *)
Definition config17 : JsValue :=
  JObject [("pins", JArray [JObject [("number", JNumber (Num 17));
                                     ("label", JString "LED");
                                     ("direction", JString "out")]])].

(** [{ pins: [{ number: 22, label: "Button", direction: "in" }] }] *)
Definition config22 : JsValue :=
  JObject [("pins", JArray [JObject [("number", JNumber (Num 22));
                                     ("label", JString "Button");
                                     ("direction", JString "in")]])].

(** The second server with the stand-in adapter, a broker and the default
    prefix; the same without [MQTT_URL]. *)
Definition env2 : V2.Env := V2.mkEnv "home/gpio" true mockDriver (λ _, false).
Definition env2_no_mqtt : V2.Env := V2.mkEnv "home/gpio" false mockDriver (λ _, false).

(** The second server after its start, from a config file and no state file *)
Definition started2 (config : JsValue) : V2.World :=
  (V2.listen env2 (V2.boot {[V2.CONFIG_FILE := Json config]})).1.

Definition world17 : V2.World := started2 config17.
Definition world22 : V2.World := started2 config22.



Definition state17 : JsValue := JObject [("17", JNumber (Num 1))].


(** The first server, its lines working *)
Definition env1 : V1.Env := V1.mkEnv mockDriver (λ _, false).

Definition booted1 (config : JsValue) : V1.World :=
  V1.mkWorld config (JObject []) ∅ {[V1.CONFIG_FILE := Json config]} [] [] [].

Definition started1 (config : JsValue) : V1.World :=
  (V1.setupGpioPins env1 (booted1 config)).1.

End Scenario.

(** * Facts about the values *)

Example StringToNumber_padded : StringToNumber " 17 " = Num 17.
Proof. reflexivity. Qed.

Example StringToNumber_signed : StringToNumber "-5" = Num (-5).
Proof. reflexivity. Qed.

Example StringToNumber_text : StringToNumber "off" = NaN.
Proof. reflexivity. Qed.

Example ToNumber_empty_array : ToNumber (JArray []) = Num 0.
Proof. reflexivity. Qed.

Example ToNumber_object : ToNumber (JObject [("a", JNull)]) = NaN.
Proof. reflexivity. Qed.

Example ToString_array :
  ToString (JArray [JNumber (Num 1); JNull; JString "a"]) = "1,,a".
Proof. reflexivity. Qed.

Example numToString_17 : numToString (Num 17) = "17".
Proof. reflexivity. Qed.

Example trim_line_feed : toUpperCase (trim (" on" +:+ String "010" "")) = "ON".
Proof. reflexivity. Qed.

Example bitXor_0_1 : bitXor (Num 0) (Num 1) = Num 1.
Proof. reflexivity. Qed.

Example jsonImage_drops_and_nulls :
  jsonImage (JObject [("number", JNumber NaN); ("label", JUndefined)])
  = JObject [("number", JNull)].
Proof. reflexivity. Qed.

Example matchSetTopic_17 :
  V2.matchSetTopic "home/gpio" "home/gpio/17/set" = Some "17".
Proof. reflexivity. Qed.

Example matchSetTopic_is_anchored :
  V2.matchSetTopic "home/gpio" "x/home/gpio/17/set" = None.
Proof. reflexivity. Qed.

Example searchSetTopic_is_not_anchored :
  V1.searchSetTopic "x/home/gpio/17/setx" = Some "17".
Proof. reflexivity. Qed.


Lemma String_eqb_eq (a b : string) : String.eqb a b = true ↔ a = b.
Proof. apply String.eqb_eq. Qed.

Lemma lookupMember_setMember_eq k v ms :
  lookupMember k (setMember k v ms) = Some v.
Proof.
  induction ms as [|[k' v'] ms IH]; simpl.
  - by rewrite String.eqb_refl.
  - destruct (String.eqb k k') eqn:E; simpl; rewrite E; [done | exact IH].
Qed.

Lemma lookupMember_setMember_ne k k' v ms :
  k ≠ k' → lookupMember k' (setMember k v ms) = lookupMember k' ms.
Proof.
  intros Hne. induction ms as [|[k0 v0] ms IH]; simpl.
  - destruct (String.eqb k' k) eqn:E; [|done].
    apply String.eqb_eq in E. congruence.
  - destruct (String.eqb k k0) eqn:E; simpl.
    + apply String.eqb_eq in E. subst k0.
      destruct (String.eqb k' k) eqn:E'; [|done].
      apply String.eqb_eq in E'. congruence.
    + by rewrite IH.
Qed.


(** ** What [String] prints for a Number *)

(** The text of a positive integer is built by putting digits in front. *)
Lemma pretty_N_go_closed (Q : string → Prop) :
  (∀ d s, (d < 10)%N → Q s → Q (String (pretty_N_char d) s)) →
  ∀ x s, Q s → Q (pretty_N_go x s).
Proof.
  intros Hcons x. induction (N.lt_wf_0 x) as [x _ IH]. intros s Hs.
  destruct (N.eq_0_gt_0_cases x) as [->|Hx]; [by rewrite pretty_N_go_0|].
  rewrite (pretty_N_go_step x s Hx).
  apply IH; [by apply N.div_lt|].
  apply Hcons; [by apply N.mod_lt | exact Hs].
Qed.

Lemma pretty_N_char_value d :
  (d < 10)%N →
  isDigit (pretty_N_char d) = true ∧
  digitValue (pretty_N_char d) = Some (Z.of_N d).
Proof.
  intros H. destruct d as [|p]; [done|].
  do 4 (try destruct p as [p|p|]); try done; lia.
Qed.

Lemma pretty_N_char_digit d : (d < 10)%N → isDigit (pretty_N_char d) = true.
Proof. intros H. apply (pretty_N_char_value d H). Qed.

Lemma pretty_Z_ne_NaN (z : Z) : pretty z ≠ "NaN".
Proof.
  unfold pretty, pretty_Z. destruct z as [|p|p]; [done| |done].
  unfold pretty, pretty_positive, pretty, pretty_N.
  case_decide; [done|].
  apply (pretty_N_go_closed (λ s, s ≠ "NaN")); [|done].
  intros d s Hd _ [= Hc _]. apply pretty_N_char_digit in Hd.
  by rewrite Hc in Hd.
Qed.

(** [String] tells two Numbers apart. *)
#[global] Instance numToString_inj : Inj (=) (=) numToString.
Proof.
  intros [|x] [|y] H; simpl in H; try done.
  - symmetry in H. by apply pretty_Z_ne_NaN in H.
  - by apply pretty_Z_ne_NaN in H.
  - f_equal. by apply (inj pretty).
Qed.

(** JSON keeps a representable value as it is. *)
Lemma jsonImage_representable (v : JsValue) :
  jsonRepresentable v = true → jsonImage v = v.
Proof.
  induction v as [| | | n | |items IH|ms IH] using JsValue_nested_ind;
    simpl; try done.
  all: try (by destruct n).
  - intros Hall. f_equal.
    induction IH as [|x rest Hx _ IHrest]; simpl in *; [done|].
    apply andb_prop in Hall as [H1 H2]. by rewrite Hx, IHrest.
  - intros Hall. f_equal.
    induction IH as [|[k x] rest Hx _ IHrest]; simpl in *; [done|].
    apply andb_prop in Hall as [H1 H2].
    rewrite IHrest by done. rewrite Hx by done.
    by destruct x.
Qed.

(** A member with a value keeps its place in the image of an object. *)
Lemma lookupMember_jsonImage k x ms :
  lookupMember k ms = Some x → x ≠ JUndefined →
  ∃ ms', jsonImage (JObject ms) = JObject ms' ∧
         lookupMember k ms' = Some (jsonImage x).
Proof.
  intros Hk Hx. simpl. eexists; split; [done|].
  induction ms as [|[k' y] ms IH]; simpl in *; [done|].
  destruct (String.eqb k k') eqn:E.
  - injection Hk as ->. destruct x; simpl; rewrite ?E; done.
  - specialize (IH Hk). destruct y; simpl; rewrite ?E; exact IH.
Qed.

Lemma jsonRepresentable_setMember k x ms :
  jsonRepresentable (JObject ms) = true →
  jsonRepresentable x = true →
  jsonRepresentable (JObject (setMember k x ms)) = true.
Proof.
  intros Hms Hx. induction ms as [|[k' y] ms IH]; simpl in *.
  - by rewrite Hx.
  - apply andb_prop in Hms as [Hy Hms].
    destruct (String.eqb k k'); simpl.
    + by rewrite Hx, Hms.
    + by rewrite Hy, (IH Hms).
Qed.

(** Flipping the lowest bit *)
Lemma lxor_1 (x : Z) : Z.lxor x 1 = if Z.even x then x + 1 else x - 1.
Proof.
  destruct x as [|p|p]; [done|..].
  - by destruct p.
  - destruct p as [p|p|]; simpl; try done.
    by destruct p.
Qed.

Lemma ToInt32_small (x : Z) : - 2 ^ 31 ≤ x < 2 ^ 31 → ToInt32 (Num x) = x.
Proof.
  intros H. unfold ToInt32.
  rewrite Z.mod_small; lia.
Qed.

Lemma lxor_1_range (x : Z) :
  - 2 ^ 31 ≤ x < 2 ^ 31 → - 2 ^ 31 ≤ Z.lxor x 1 < 2 ^ 31.
Proof.
  intros H. rewrite lxor_1. destruct (Z.even x) eqn:E.
  - apply Z.even_spec in E as [k ->]. lia.
  - rewrite <- Z.negb_odd in E. apply negb_false_iff, Z.odd_spec in E as [k ->]. lia.
Qed.

Lemma lxor_1_twice (x : Z) : Z.lxor (Z.lxor x 1) 1 = x.
Proof. by rewrite Z.lxor_assoc, Z.lxor_nilpotent, Z.lxor_0_r. Qed.

(** [x ^ 1] on a 32-bit [x], and [(x ^ 1) ^ 1], which is [x] again *)
Lemma bitXor_1 (x : Z) :
  - 2 ^ 31 ≤ x < 2 ^ 31 → bitXor (Num x) (Num 1) = Num (Z.lxor x 1).
Proof.
  intros H. unfold bitXor. change (ToInt32 (Num 1)) with 1.
  rewrite (ToInt32_small x H).
  by rewrite (ToInt32_small _ (lxor_1_range x H)).
Qed.

Lemma bitXor_1_involutive (x : Z) :
  - 2 ^ 31 ≤ x < 2 ^ 31 →
  bitXor (bitXor (Num x) (Num 1)) (Num 1) = Num x.
Proof.
  intros H.
  rewrite (bitXor_1 x H), (bitXor_1 _ (lxor_1_range x H)).
  by rewrite lxor_1_twice.
Qed.

Lemma upperChar_1 (c : ascii) : upperChar c = "1"%char → c = "1"%char.
Proof.
  destruct c as [[] [] [] [] [] [] [] []]; vm_compute; congruence.
Qed.

Lemma toUpperCase_1 (s : string) : toUpperCase s = "1" ↔ s = "1".
Proof.
  split; [|by intros ->].
  destruct s as [|c [|c' s]]; simpl; try done.
  intros [= H]. by rewrite (upperChar_1 c H).
Qed.

(** ** Decimal digits: what [String] prints, [Number] reads back *)

Lemma stripPrefix_app p s : stripPrefix p (p +:+ s) = Some s.
Proof. induction p as [|a p IH]; simpl; [done|]. by rewrite Ascii.eqb_refl. Qed.

Lemma spanDigits_app ds rest :
  allChars isDigit ds = true →
  (∀ c r, rest = String c r → isDigit c = false) →
  spanDigits (ds +:+ rest) = (ds, rest).
Proof.
  intros Hds Hrest. induction ds as [|c ds IH]; simpl in *.
  - destruct rest as [|c r]; [done|]. simpl. by rewrite (Hrest c r).
  - apply andb_prop in Hds as [Hc Hds]. by rewrite Hc, (IH Hds).
Qed.

Lemma digitValue_pretty_N_char x :
  (x < 10)%N → digitValue (pretty_N_char x) = Some (Z.of_N x).
Proof. intros H. apply (pretty_N_char_value x H). Qed.

Lemma pretty_N_go_digits x s :
  allChars isDigit s = true → allChars isDigit (pretty_N_go x s) = true.
Proof.
  apply (pretty_N_go_closed (λ s, allChars isDigit s = true)).
  intros d t Hd Ht. simpl. by rewrite (pretty_N_char_digit d Hd), Ht.
Qed.

Lemma pretty_N_go_nonempty x s : (0 < x)%N → pretty_N_go x s ≠ "".
Proof.
  intros Hx. rewrite (pretty_N_go_step x s Hx).
  by apply (pretty_N_go_closed (λ s, s ≠ "")).
Qed.

Lemma parseDigits_pretty_N_go x :
  ∃ k, ∀ s acc,
    parseDigits acc (pretty_N_go x s) = parseDigits (acc * k + Z.of_N x) s.
Proof.
  induction (N.lt_wf_0 x) as [x _ IH].
  assert (x = 0 ∨ 0 < x)%N as [->|?] by lia.
  - exists 1. intros s acc. rewrite pretty_N_go_0. f_equal. lia.
  - destruct (IH (x `div` 10)%N) as [k Hk]; [by apply N.div_lt|].
    exists (10 * k). intros s acc.
    rewrite pretty_N_go_step by done. rewrite Hk. simpl.
    rewrite digitValue_pretty_N_char by (by apply N.mod_lt).
    f_equal. rewrite (N.div_mod x 10) at 3 by done. lia.
Qed.

Lemma pretty_nonneg_digits (z : Z) :
  0 ≤ z →
  allChars isDigit (pretty z) = true ∧ pretty z ≠ "" ∧
  parseDigits 0 (pretty z) = Some z.
Proof.
  intros Hz. unfold pretty, pretty_Z.
  destruct z as [|p|p]; [done| |lia].
  unfold pretty, pretty_positive, pretty, pretty_N.
  case_decide; [done|].
  split; [by apply pretty_N_go_digits|].
  split; [by apply pretty_N_go_nonempty|].
  destruct (parseDigits_pretty_N_go (N.pos p)) as [k Hk].
  rewrite Hk. simpl. done.
Qed.

Lemma isDigit_not_space c : isDigit c = true → isWhiteSpace c = false.
Proof. destruct c as [[] [] [] [] [] [] [] []]; vm_compute; congruence. Qed.

Lemma trim_digits s : allChars isDigit s = true → trim s = s.
Proof.
  intros Hs. unfold trim.
  assert (trimStart s = s) as ->.
  { destruct s as [|c s]; [done|]. simpl in *.
    apply andb_prop in Hs as [Hc _]. by rewrite (isDigit_not_space c Hc). }
  induction s as [|c s IH]; [done|]. simpl in *.
  apply andb_prop in Hs as [Hc Hs]. rewrite (IH Hs).
  destruct s; [|done]. by rewrite (isDigit_not_space c Hc).
Qed.

Lemma StringToNumber_digits s z :
  allChars isDigit s = true → s ≠ "" → parseDigits 0 s = Some z →
  StringToNumber s = Num z.
Proof.
  intros Hs Hne Hp. unfold StringToNumber. rewrite (trim_digits s Hs).
  destruct s as [|c t]; [done|].
  assert (Hc : isDigit c = true) by (simpl in Hs; by apply andb_prop in Hs as [? _]).
  unfold unsignedDecimal.
  destruct c as [[] [] [] [] [] [] [] []]; try (vm_compute in Hc; congruence);
    by rewrite Hp.
Qed.

(** * Facts about the second server *)

Module V2Facts.
Import V2.

Section Facts.
Context (env : Env).

Lemma swallow_writeSync_quiet w key e v :
  pins w !! key = Some e → gpio_watchers (gpio e) = [] →
  swallow (writeSync env key v) w =
    (if write_throws (driver env) (gpio_number (gpio e)) then w
     else set_pins (<[key := withLevel e v]> (pins w)) w, Normal tt).
Proof.
  intros Hk Hw. unfold swallow, tryCatch, writeSync. simpl.
  unfold mbind, M_bind, get. rewrite Hk. simpl.
  destruct (write_throws _ _); [done|]. simpl. unfold withLevel. by rewrite Hw.
Qed.

(** What both inbound handlers run on an output, once they have its entry *)
Lemma output_tail w n v e ms :
  registry_ok w →
  savedState w = JObject ms →
  pins w !! n = Some e →
  meta_direction (meta e) = Out →
  (swallow (writeSync env n v) ;;
   w ← get;
   saved ← eval (setProp (savedState w) (numToString n) (JNumber v));
   modify (set_savedState saved) ;;
   swallow (writeJsonSafe env STATE_FILE saved) ;;
   io_emit (Pin n v) ;;
   publishMqtt env n v) w
  = (applyOutput env n v e ms w, Normal tt).
Proof.
  intros Hok Hs He Hd.
  destruct (Hok _ _ He) as (Hmn & Hgn & _ & Hq). specialize (Hq Hd).
  unfold mbind at 1, M_bind at 1.
  rewrite (swallow_writeSync_quiet w n e v He Hq), Hgn.
  unfold applyOutput, stateTopic, onOff, io_emit, publishMqtt, writeJsonSafe,
    swallow, tryCatch.
  unfold mbind, M_bind, get, eval, modify, throw, mret, M_ret.
  destruct (write_throws (driver env) n), (write_fails env STATE_FILE) eqn:Hf,
    (mqttClient env); simpl; rewrite ?Hs; simpl; rewrite ?Hf; simpl; try done.
Qed.

Lemma on_setPin_out w msg number value e ms :
  registry_ok w →
  savedState w = JObject ms →
  getProp msg "number" = Normal number →
  getProp msg "value" = Normal value →
  pins w !! ToNumber number = Some e →
  meta_direction (meta e) = Out →
  on_setPin env msg w =
    (applyOutput env (ToNumber number) (toBit (ToNumber value)) e ms w, Normal tt).
Proof.
  intros Hok Hs Hn Hv He Hd.
  destruct (Hok _ _ He) as (Hmn & _).
  rewrite <- (output_tail w _ _ e ms Hok Hs He Hd).
  unfold on_setPin. rewrite Hn, Hv. simpl.
  unfold mbind at 1, M_bind at 1. simpl. unfold mbind at 1, M_bind at 1. simpl.
  unfold mbind at 1, M_bind at 1. simpl.
  rewrite He, Hd, Hmn. done.
Qed.

Lemma on_mqtt_message_out w topic payload digits e ms :
  registry_ok w →
  savedState w = JObject ms →
  mqttClient env = true →
  matchSetTopic (MQTT_PREFIX env) topic = Some digits →
  pins w !! StringToNumber digits = Some e →
  meta_direction (meta e) = Out →
  on_mqtt_message env topic payload w =
    (applyOutput env (StringToNumber digits) (payloadValue payload) e ms w, Normal tt).
Proof.
  intros Hok Hs Hc Hm He Hd.
  rewrite <- (output_tail w _ _ e ms Hok Hs He Hd).
  unfold on_mqtt_message. rewrite Hc, Hm. simpl.
  unfold mbind at 1, M_bind at 1. simpl.
  rewrite He, Hd. done.
Qed.

Lemma on_setPin_notOutput w msg number value :
  getProp msg "number" = Normal number →
  getProp msg "value" = Normal value →
  notOutput w (ToNumber number) →
  on_setPin env msg w = (w, Normal tt).
Proof.
  intros Hn Hv Hno. unfold on_setPin. rewrite Hn, Hv.
  unfold mbind, M_bind, eval, get. simpl.
  destruct Hno as [->|(e & -> & Hd)]; [done|]. by rewrite Hd.
Qed.

Lemma on_mqtt_message_notOutput w topic payload digits :
  matchSetTopic (MQTT_PREFIX env) topic = Some digits →
  notOutput w (StringToNumber digits) →
  on_mqtt_message env topic payload w = (w, Normal tt).
Proof.
  intros Hm Hno. unfold on_mqtt_message.
  destruct (mqttClient env); simpl; [|done].
  rewrite Hm. unfold mbind, M_bind, get. simpl.
  destruct Hno as [->|(e & -> & Hd)]; [done|]. by rewrite Hd.
Qed.


Lemma applyOutput_registry_ok w n v e ms :
  registry_ok w → pins w !! n = Some e →
  registry_ok (applyOutput env n v e ms w).
Proof.
  intros Hok He m e' Hm. unfold applyOutput in Hm. simpl in Hm.
  destruct (write_throws (driver env) n); [by apply Hok|].
  destruct (decide (n = m)) as [->|Hne].
  - rewrite lookup_insert_eq in Hm. injection Hm as <-.
    destruct (Hok _ _ He) as (? & ? & ? & ?). by unfold withLevel.
  - rewrite lookup_insert_ne in Hm by done. by apply Hok.
Qed.


(** ** The rebuild *)

Lemma setupPin_accepted w p ms :
  savedState w = JObject ms →
  pinAccepted env p = true →
  setupPin env p w =
    (pinInstalled env ms (pinNumber p) (pinDirection p) (pinLabel p) w, Normal tt).
Proof.
  intros Hs Hacc. unfold pinAccepted in Hacc.
  unfold setupPin, pinInstalled, pinNumber, pinDirection, pinLabel, member in *.
  destruct (getProp p "number") as [pn|] eqn:Hn; [|by destruct p].
  destruct (getProp p "direction") as [pd|] eqn:Hd; [|by destruct p].
  destruct (getProp p "label") as [pl|] eqn:Hl; [|by destruct p].
  assert (Hacc' : match orElse pd (JString "out") with
                  | JString _ => negb (ctor_throws (driver env) (ToNumber pn))
                  | _ => false end = true) by (by destruct p).
  clear Hacc.
  destruct (orElse pd (JString "out")) as [| | | |s| |] eqn:Ho; try done.
  apply negb_true_iff in Hacc'.
  unfold pinNumber, member. rewrite Hn. simpl.
  unfold newGpio, callToLowerCase, swallow, tryCatch, writeSync, watch,
    initialValue, publishMqtt, subscribeMqttForPin, stateTopic, setTopic, onOff,
    freshEntry, initialLevel.
  unfold mbind, M_bind, Completion_bind, eval, modify, get, throw, mret, M_ret.
  rewrite Ho, Hacc'. simpl.
  destruct (toLowerCase s =? "in")%string; simpl.
  - rewrite lookup_insert_eq. simpl.
    destruct (watch_throws (driver env) (ToNumber pn)); simpl;
      destruct (mqttClient env); simpl; rewrite ?insert_insert_eq; done.
  - rewrite Hs. simpl. rewrite lookup_insert_eq. simpl.
    destruct (write_throws (driver env) (ToNumber pn)); simpl;
      destruct (mqttClient env); simpl; rewrite ?insert_insert_eq;
      unfold set_subscribed, set_published, set_pins; simpl; by rewrite ?Hs.
Qed.

Lemma forEach_setupPin w ps ms :
  savedState w = JObject ms →
  forallb (pinAccepted env) ps = true →
  forEach ps (setupPin env) w = (installAll env ms ps w, Normal tt).
Proof.
  revert w. induction ps as [|p ps IH]; intros w Hs Hall; simpl in *; [done|].
  apply andb_prop in Hall as [Hp Hps].
  unfold mbind, M_bind. rewrite (setupPin_accepted w p ms Hs Hp).
  by apply IH.
Qed.

Lemma forEach_release w (l : list (JsNum * Entry)) :
  ∃ ps', forEach l (λ ke, swallow (release env ke.1)) w = (set_pins ps' w, Normal tt).
Proof.
  revert w. induction l as [|[k e] l IH]; intros w; simpl.
  - exists (pins w). by destruct w.
  - unfold mbind, M_bind.
    assert (∃ ps1, swallow (release env k) w = (set_pins ps1 w, Normal tt)) as [ps1 ->].
    { unfold swallow, tryCatch, release. unfold mbind, M_bind, get, modify, throw, mret, M_ret.
      destruct (pins w !! k) as [e'|]; simpl.
      - destruct (release_throws _ _); simpl; [exists (pins w); by destruct w|by eexists].
      - exists (pins w). by destruct w. }
    destruct (IH (set_pins ps1 w)) as [ps' ->]. by exists ps'.
Qed.

Lemma getCurrentState_members w ms :
  savedState w = JObject ms →
  getCurrentState env w =
    Normal (JObject (snapshotMembers env ms (map_to_list (pins w)) [])).
Proof.
  intros Hs. unfold getCurrentState, snapshotMembers.
  generalize (@nil (string * JsValue)).
  induction (map_to_list (pins w)) as [|[num e] l IH]; intros acc; simpl; [done|].
  rewrite <- IH. f_equal.
  unfold snapshotValue. destruct (readSync env (gpio e)); simpl; [done|].
  by rewrite Hs.
Qed.


Lemma installAll_frame ms ps w :
  config (installAll env ms ps w) = config w ∧
  savedState (installAll env ms ps w) = savedState w ∧
  files (installAll env ms ps w) = files w ∧
  emitted (installAll env ms ps w) = emitted w.
Proof.
  revert w. induction ps as [|p ps IH]; intros w; simpl; [done|].
  destruct (IH (pinInstalled env ms (pinNumber p) (pinDirection p) (pinLabel p) w))
    as (-> & -> & -> & ->). done.
Qed.

Lemma setupPins_rebuilt w ms ps :
  savedState w = JObject ms →
  configPins (config w) = Normal ps →
  forallb (pinAccepted env) ps = true →
  setupPins env w = (rebuilt env ms ps w, Normal tt).
Proof.
  intros Hs Hc Hall. unfold setupPins.
  unfold mbind at 1, M_bind at 1, get at 1.
  unfold mbind at 1, M_bind at 1.
  destruct (forEach_release w (map_to_list (pins w))) as [ps' ->].
  unfold mbind at 1, M_bind at 1, modify at 1.
  unfold mbind at 1, M_bind at 1, get at 1.
  replace (set_pins ∅ (set_pins ps' w)) with (set_pins ∅ w) by done.
  unfold mbind at 1, M_bind at 1, eval at 1.
  replace (config (set_pins ∅ w)) with (config w) by done. rewrite Hc.
  unfold mbind at 1, M_bind at 1.
  rewrite (forEach_setupPin (set_pins ∅ w) ps ms) by done.
  unfold broadcastFullState, rebuilt.
  unfold mbind at 1, M_bind at 1, get at 1.
  destruct (installAll_frame ms ps (set_pins ∅ w)) as (_ & Hs' & _).
  rewrite (getCurrentState_members _ ms) by (by rewrite Hs').
  done.
Qed.

Lemma pinInstalled_built ms number direction label w :
  built env ms w → built env ms (pinInstalled env ms number direction label w).
Proof.
  intros Hb n e He. unfold pinInstalled in *. simpl in *.
  destruct (decide (number = n)) as [->|Hne].
  - rewrite lookup_insert_eq in He. injection He as <-. split; [by destruct direction|].
    simpl. intros -> ->. apply elem_of_app. right. by apply list_elem_of_singleton.
  - rewrite lookup_insert_ne in He by done.
    destruct (Hb n e He) as [Hf Hp]. split; [done|].
    intros Hd Hc. specialize (Hp Hd Hc).
    destruct direction; [done|]. rewrite Hc. apply elem_of_app. by left.
Qed.

Lemma installAll_built ms ps w :
  built env ms w → built env ms (installAll env ms ps w).
Proof.
  revert w. induction ps as [|p ps IH]; intros w Hb; simpl; [done|].
  by apply IH, pinInstalled_built.
Qed.

Lemma rebuilt_built ms ps w : built env ms (rebuilt env ms ps w).
Proof.
  assert (Hb : built env ms (installAll env ms ps (set_pins ∅ w))).
  { apply installAll_built. intros n e He. simpl in He.
    by rewrite lookup_empty in He. }
  intros n e He. exact (Hb n e He).
Qed.

Lemma built_registry_ok ms w : built env ms w → registry_ok w.
Proof.
  intros Hb n e He. destruct (Hb n e He) as [-> _]. simpl.
  repeat split; try done. by intros ->.
Qed.

End Facts.
End V2Facts.

Module V2Rebuild.
Import V2.

Section Facts.
Context (env : Env).





End Facts.
End V2Rebuild.

(** * Facts about the first server *)

Module V1Facts.
Import V1.

Section Facts.
Context (env : Env).




(** [emitStatus] and [publish] leave the adapters, the state and the files. *)
Lemma status_and_publish_frame w topic payload :
  pins ((emitStatus env ;; publish topic payload) w).1 = pins w ∧
  savedState ((emitStatus env ;; publish topic payload) w).1 = savedState w ∧
  files ((emitStatus env ;; publish topic payload) w).1 = files w ∧
  config ((emitStatus env ;; publish topic payload) w).1 = config w.
Proof.
  unfold emitStatus, publish.
  unfold mbind, M_bind, get, eval, modify. simpl.
  by destruct (foldl _ _ _).
Qed.

Lemma on_toggle_out w pin obj ms :
  outEntry w (ToString pin) = Some obj →
  savedState w = JObject ms →
  read_throws (driver env) (line (gpio obj)) = false →
  write_throws (driver env) (line (gpio obj)) = false →
  write_fails env STATE_FILE = false →
  on_toggle env pin w =
    (emitStatus env ;;
     publish ("home/gpio/" +:+ ToString pin +:+ "/state")
             (if truthyNum (bitXor (gpio_value (gpio obj)) (Num 1)) then "ON" else "OFF"))
      (toggled (ToString pin) obj ms w).
Proof.
  intros Ho Hs Hr Hw Hf.
  unfold on_toggle. unfold mbind at 1, M_bind at 1, get at 1. rewrite Ho.
  unfold readSync. rewrite Hr.
  unfold mbind at 1, M_bind at 1, eval at 1.
  unfold mbind at 1, M_bind at 1.
  unfold writePin, writeSync. rewrite Hw.
  unfold mbind at 1, M_bind at 1, eval at 1.
  unfold modify at 1.
  unfold mbind at 1, M_bind at 1.
  unfold saveState.
  unfold mbind at 1, M_bind at 1, get at 1.
  unfold mbind at 1, M_bind at 1, eval at 1.
  cbn [savedState set_pins]. rewrite Hs. cbn [setProp].
  unfold mbind at 1, M_bind at 1.
  unfold mbind at 1, M_bind at 1, modify at 1.
  unfold mbind at 1, M_bind at 1, eval at 1. cbn [JSON_stringify].
  rewrite Hf. unfold modify at 1.
  done.
Qed.

Lemma toggle_touches w pin obj ms :
  outEntry w (ToString pin) = Some obj →
  savedState w = JObject ms →
  read_throws (driver env) (line (gpio obj)) = false →
  write_throws (driver env) (line (gpio obj)) = false →
  write_fails env STATE_FILE = false →
  let w' := (on_toggle env pin w).1 in
  let t := toggled (ToString pin) obj ms w in
  pins w' = pins t ∧ savedState w' = savedState t ∧ files w' = files t.
Proof.
  intros Ho Hs Hr Hw Hf. simpl.
  rewrite (on_toggle_out w pin obj ms Ho Hs Hr Hw Hf).
  destruct (status_and_publish_frame (toggled (ToString pin) obj ms w)
              ("home/gpio/" +:+ ToString pin +:+ "/state")
              (if truthyNum (bitXor (gpio_value (gpio obj)) (Num 1)) then "ON" else "OFF"))
    as (-> & -> & -> & _).
  done.
Qed.

End Facts.
End V1Facts.

(** * The invariant of the second server holds in every state it reaches *)

Module V2Invariant.
Import V2.

Section Facts.
Context (env : Env).

(** The invariant looks at the pin map and the state only. *)
Lemma invariant_frame w w' :
  pins w' = pins w → savedState w' = savedState w →
  registry_ok w ∧ state_ok w → registry_ok w' ∧ state_ok w'.
Proof.
  intros Hp Hs [Hr Ho]. unfold registry_ok, state_ok in *. by rewrite Hp, Hs.
Qed.

Lemma state_ok_members w : state_ok w → ∃ ms, savedState w = JObject ms.
Proof. unfold state_ok. destruct (savedState w); try done. by eexists. Qed.

Lemma setupPin_outcome w p ms :
  savedState w = JObject ms →
  setupPin env p w =
    (pinInstalled env ms (pinNumber p) (pinDirection p) (pinLabel p) w, Normal tt) ∨
  setupPin env p w = (w, Thrown).
Proof.
  intros Hs. destruct (pinAccepted env p) eqn:Ha.
  { left. by apply V2Facts.setupPin_accepted. }
  right. unfold pinAccepted, member, pinNumber, member in Ha. unfold setupPin.
  destruct (getProp p "number") as [pn|] eqn:Hn; [|done].
  destruct (getProp p "direction") as [pd|] eqn:Hd; [|by destruct p].
  assert (Ha' : match orElse pd (JString "out") with
                | JString _ => negb (ctor_throws (driver env) (ToNumber pn))
                | _ => false end = false) by (by destruct p).
  unfold mbind, M_bind, eval, callToLowerCase, newGpio, throw. simpl.
  destruct (orElse pd (JString "out")); try done.
  destruct (getProp p "label"); [|done].
  apply negb_false_iff in Ha'. by rewrite Ha'.
Qed.

Lemma forEach_setupPin_any w ps ms :
  savedState w = JObject ms →
  ∃ ps' c, forEach ps (setupPin env) w = (installAll env ms ps' w, c).
Proof.
  revert w. induction ps as [|p ps IH]; intros w Hs; simpl.
  - by exists [], (Normal tt).
  - unfold mbind, M_bind.
    destruct (setupPin_outcome w p ms Hs) as [-> | ->].
    + destruct (IH (pinInstalled env ms (pinNumber p) (pinDirection p) (pinLabel p) w))
        as (ps' & c & ->); [done|].
      by exists (p :: ps'), c.
    + by exists [], Thrown.
Qed.

Lemma built_empty ms w : built env ms (set_pins ∅ w).
Proof. intros n e He. simpl in He. by rewrite lookup_empty in He. Qed.

Lemma built_frame ms w w' :
  pins w' = pins w → published w' = published w →
  built env ms w → built env ms w'.
Proof. unfold built. intros -> ->. done. Qed.

(** However a rebuild ends, it leaves a map of fresh entries and the state
    as it was. *)
Lemma setupPins_any w ms :
  savedState w = JObject ms →
  ∃ w' c, setupPins env w = (w', c) ∧
          built env ms w' ∧ savedState w' = savedState w.
Proof.
  intros Hs. unfold setupPins.
  unfold mbind at 1, M_bind at 1, get at 1.
  unfold mbind at 1, M_bind at 1.
  destruct (V2Facts.forEach_release env w (map_to_list (pins w))) as [ps' ->].
  unfold mbind at 1, M_bind at 1, modify at 1.
  unfold mbind at 1, M_bind at 1, get at 1.
  replace (set_pins ∅ (set_pins ps' w)) with (set_pins ∅ w) by done.
  unfold mbind at 1, M_bind at 1, eval at 1.
  destruct (configPins (config (set_pins ∅ w))) as [ps|].
  2:{ eexists _, _. split; [done|]. split; [apply built_empty | done]. }
  unfold mbind at 1, M_bind at 1.
  destruct (forEach_setupPin_any (set_pins ∅ w) ps ms Hs) as (qs & c & ->).
  assert (Hb : built env ms (installAll env ms qs (set_pins ∅ w)))
    by apply V2Facts.installAll_built, built_empty.
  destruct (V2Facts.installAll_frame env ms qs (set_pins ∅ w)) as (_ & Hs' & _).
  destruct c; [|by eexists _, _].
  unfold broadcastFullState.
  unfold mbind at 1, M_bind at 1, get at 1.
  rewrite (V2Facts.getCurrentState_members env _ ms) by (by rewrite Hs').
  eexists _, _. split; [done|]. done.
Qed.

Lemma on_setPin_invariant w msg :
  registry_ok w ∧ state_ok w →
  registry_ok (on_setPin env msg w).1 ∧ state_ok (on_setPin env msg w).1.
Proof.
  intros [Hr Ho]. destruct (state_ok_members w Ho) as [ms Hs].
  destruct (getProp msg "number") as [number|] eqn:Hn.
  2:{ unfold on_setPin. by rewrite Hn. }
  destruct (getProp msg "value") as [value|] eqn:Hv; [|by destruct msg].
  destruct (pins w !! ToNumber number) as [e|] eqn:He.
  2:{ rewrite (V2Facts.on_setPin_notOutput env w msg number value Hn Hv); [done|by left]. }
  destruct (meta_direction (meta e)) eqn:Hd.
  { rewrite (V2Facts.on_setPin_notOutput env w msg number value Hn Hv); [done|].
    right. by exists e. }
  rewrite (V2Facts.on_setPin_out env w msg number value e ms) by done.
  split; [by apply V2Facts.applyOutput_registry_ok | done].
Qed.

Lemma on_mqtt_message_invariant w topic payload :
  registry_ok w ∧ state_ok w →
  registry_ok (on_mqtt_message env topic payload w).1 ∧
  state_ok (on_mqtt_message env topic payload w).1.
Proof.
  intros [Hr Ho]. destruct (state_ok_members w Ho) as [ms Hs].
  destruct (mqttClient env) eqn:Hc.
  2:{ unfold on_mqtt_message. by rewrite Hc. }
  destruct (matchSetTopic (MQTT_PREFIX env) topic) as [digits|] eqn:Hm.
  2:{ unfold on_mqtt_message. by rewrite Hc, Hm. }
  destruct (pins w !! StringToNumber digits) as [e|] eqn:He.
  2:{ rewrite (V2Facts.on_mqtt_message_notOutput env w topic payload digits Hm); [done|by left]. }
  destruct (meta_direction (meta e)) eqn:Hd.
  { rewrite (V2Facts.on_mqtt_message_notOutput env w topic payload digits Hm); [done|].
    right. by exists e. }
  rewrite (V2Facts.on_mqtt_message_out env w topic payload digits e ms) by done.
  split; [by apply V2Facts.applyOutput_registry_ok | done].
Qed.

Lemma runWatchers_frame (cbs : list Watcher) value w :
  ∃ w', forEach cbs (λ cb, runWatcher env cb value) w = (w', Normal tt) ∧
        pins w' = pins w ∧ savedState w' = savedState w.
Proof.
  revert w. induction cbs as [|[number] cbs IH]; intros w; cbn [forEach]; [by eexists|].
  unfold mbind at 1, M_bind at 1.
  assert (∃ w1, runWatcher env (ForwardInput number) value w = (w1, Normal tt) ∧
                pins w1 = pins w ∧ savedState w1 = savedState w) as (w1 & -> & Hp & Hs).
  { unfold runWatcher, io_emit, publishMqtt.
    unfold mbind, M_bind, modify, mret, M_ret.
    destruct (mqttClient env); simpl; by eexists. }
  destruct (IH w1) as (w' & -> & Hp' & Hs'). exists w'.
  by rewrite Hp', Hs', Hp, Hs.
Qed.

Lemma on_input_change_invariant w key value :
  registry_ok w ∧ state_ok w →
  registry_ok (on_input_change env key value w).1 ∧
  state_ok (on_input_change env key value w).1.
Proof.
  intros [Hr Ho]. unfold on_input_change.
  unfold mbind, M_bind, get, modify.
  destruct (pins w !! key) as [e|] eqn:He; [|done].
  match goal with
  | |- context [forEach ?cbs _ ?W] =>
      destruct (runWatchers_frame cbs value W) as (w' & -> & Hp & Hs)
  end.
  unfold registry_ok, state_ok. simpl. rewrite Hp, Hs. split; [|done].
  intros n e' Hn. simpl in Hn.
  destruct (decide (key = n)) as [->|Hne].
  - rewrite lookup_insert_eq in Hn. injection Hn as <-.
    destruct (Hr _ _ He) as (? & ? & ? & ?). done.
  - rewrite lookup_insert_ne in Hn by done. by apply Hr.
Qed.

Lemma setupPins_invariant w :
  state_ok w →
  registry_ok (setupPins env w).1 ∧ state_ok (setupPins env w).1.
Proof.
  intros Ho. destruct (state_ok_members w Ho) as [ms Hs].
  destruct (setupPins_any w ms Hs) as (w' & c & -> & Hb & Hs').
  split; [by eapply V2Facts.built_registry_ok|].
  unfold state_ok. simpl. by rewrite Hs', Hs.
Qed.

Lemma post_api_config_invariant w body :
  registry_ok w ∧ state_ok w →
  registry_ok (post_api_config env body w).1 ∧
  state_ok (post_api_config env body w).1.
Proof.
  intros Hi. destruct (post_api_config env body w) as [w' c] eqn:E.
  revert E. unfold post_api_config.
  destruct (truthy body); simpl; [|by intros [= <- <-]].
  unfold mbind at 1, M_bind at 1, eval at 1.
  destruct (getProp body "pins") as [ps|]; [|by intros [= <- <-]].
  destruct ps; try (by intros [= <- <-]).
  unfold mbind at 1, M_bind at 1, eval at 1.
  destruct (mapArray sanitizePin items) as [sanitized|]; [|by intros [= <- <-]].
  unfold mbind at 1, M_bind at 1, eval at 1.
  destruct (setProp body "pins" (JArray sanitized)) as [newConfig'|];
    [|by intros [= <- <-]].
  unfold mbind at 1, M_bind at 1, modify at 1.
  unfold mbind at 1, M_bind at 1.
  assert (∃ w1 written,
            tryCatch (writeJsonSafe env CONFIG_FILE newConfig' ;; mret true) (mret false)
              (set_config newConfig' w) = (w1, Normal written) ∧
            pins w1 = pins w ∧ savedState w1 = savedState w)
    as (w1 & written & -> & Hp & Hs).
  { unfold tryCatch, writeJsonSafe, JSON_stringify.
    unfold mbind, M_bind, eval, modify, throw, mret, M_ret.
    destruct newConfig'; simpl; try (by eexists _, _);
      destruct (write_fails env CONFIG_FILE); simpl; by eexists _, _. }
  destruct written.
  - unfold mbind at 1, M_bind at 1.
    assert (Ho1 : state_ok w1) by (unfold state_ok; rewrite Hs; apply Hi).
    destruct (setupPins_invariant w1 Ho1) as [Hr2 Ho2].
    destruct (setupPins env w1) as [w2 []]; by intros [= <- <-].
  - intros [= <- <-]. by apply (invariant_frame w w1).
Qed.

(** Every handler keeps the invariant, however it ends. *)
Lemma handle_invariant w ev :
  registry_ok w ∧ state_ok w →
  registry_ok (handle env ev w).1 ∧ state_ok (handle env ev w).1.
Proof.
  intros Hi. destruct ev as [|id|msg|topic payload|key value| |body|]; simpl.
  - apply setupPins_invariant, Hi.
  - apply (invariant_frame w); [..|done];
      unfold on_connection, socket_emit, mbind, M_bind, get, eval, modify;
      by destruct (getCurrentState env w).
  - by apply on_setPin_invariant.
  - by apply on_mqtt_message_invariant.
  - by apply on_input_change_invariant.
  - done.
  - unfold mbind, M_bind.
    destruct (post_api_config_invariant w body Hi) as [Hr Ho].
    by destruct (post_api_config env body w) as [w' []].
  - apply (invariant_frame w); [..|done];
      unfold get_api_state, mbind, M_bind, get, eval, mret, M_ret;
      by destruct (getCurrentState env w).
Qed.

(** From a start with a state file that holds an object, or none that can be
    read, every run of events ends in a world with the invariant. *)
Theorem invariant_reachable (fs : gmap string FileContent) (evs : list Event) :
  isObject (loadState fs) = true →
  registry_ok (run env evs (boot fs)) ∧ state_ok (run env evs (boot fs)).
Proof.
  intros Hs. unfold run.
  assert (Hi : registry_ok (boot fs) ∧ state_ok (boot fs)).
  { split; [|done]. intros n e He. simpl in He. by rewrite lookup_empty in He. }
  revert Hi. generalize (boot fs).
  induction evs as [|ev evs IH]; intros w Hi; simpl; [done|].
  apply IH, handle_invariant, Hi.
Qed.

End Facts.
End V2Invariant.

(** * Set topics *)

Lemma append_assoc_string (a b c : string) : (a +:+ b) +:+ c = a +:+ (b +:+ c).
Proof.
  induction a as [|x a IH]; [done|].
  change (String x ((a +:+ b) +:+ c) = String x (a +:+ (b +:+ c))). by rewrite IH.
Qed.

(** The topic [<prefix>/<n>/set] of a pin [n >= 0] is a set topic, and its
    digits convert to [n]. *)
Lemma setTopic_addresses_pin (env : V2.Env) (z : Z) :
  0 ≤ z →
  V2.matchSetTopic (V2.MQTT_PREFIX env) (V2.setTopic env (Num z)) = Some (pretty z) ∧
  StringToNumber (pretty z) = Num z.
Proof.
  intros Hz. destruct (pretty_nonneg_digits z Hz) as (Hd & Hne & Hp).
  split; [|by apply StringToNumber_digits].
  unfold V2.matchSetTopic, V2.setTopic. simpl numToString.
  rewrite <- append_assoc_string, stripPrefix_app. simpl.
  rewrite spanDigits_app; [|done|by intros c r [= <- <-]].
  by destruct (pretty z).
Qed.

Lemma searchSetTopic_here topic ds :
  V1.matchSetHere topic = Some ds → V1.searchSetTopic topic = Some ds.
Proof.
  intros H. destruct topic as [|c t]; [by vm_compute in H|].
  change (V1.searchSetTopic (String c t))
    with (match V1.matchSetHere (String c t) with
          | Some ds => Some ds
          | None => V1.searchSetTopic t
          end).
  by rewrite H.
Qed.

Lemma searchSetTopic_addresses_pin (z : Z) :
  0 ≤ z →
  V1.searchSetTopic ("home/gpio/" +:+ pretty z +:+ "/set") = Some (pretty z).
Proof.
  intros Hz. destruct (pretty_nonneg_digits z Hz) as (Hd & Hne & Hp).
  apply searchSetTopic_here.
  unfold V1.matchSetHere. rewrite stripPrefix_app. simpl.
  rewrite spanDigits_app; [|done|by intros c r [= <- <-]].
  by destruct (pretty z).
Qed.

(** * The scenario worlds *)

Module ScenarioFacts.
Import Scenario.

Lemma started2_rebuilt config ps :
  V2.configPins config = Normal ps →
  forallb (V2.pinAccepted env2) ps = true →
  started2 config =
    V2.rebuilt env2 [] ps (V2.boot {[V2.CONFIG_FILE := Json config]}).
Proof.
  intros Hc Ha. unfold started2, V2.listen.
  rewrite (V2Facts.setupPins_rebuilt env2 _ [] ps); [done|done|exact Hc|exact Ha].
Qed.

Lemma started2_registry_ok config ps :
  V2.configPins config = Normal ps →
  forallb (V2.pinAccepted env2) ps = true →
  V2.registry_ok (started2 config).
Proof.
  intros Hc Ha. rewrite (started2_rebuilt config ps Hc Ha).
  eapply V2Facts.built_registry_ok, V2Facts.rebuilt_built.
Qed.


Lemma world22_registry_ok : V2.registry_ok world22.
Proof. by eapply started2_registry_ok. Qed.

End ScenarioFacts.

(** * The claims *)

Import Scenario.






(** C3, as stated, fails: the payload ' on ' is neither 'ON' in any case nor
    '1', and the second server maps it to 1, because it trims the text first;
    the message sets the output 17 to 1. *)
Lemma padded_payload_maps_to_1 :
  Spec.payloadValue " on " = Num 0 ∧
  V2.payloadValue " on " = Num 1 ∧
  V2.outputDone env2 world17 (Num 17) (Num 1)
    (V2.on_mqtt_message env2 "home/gpio/17/set" " on " world17).
Proof.
  split; [done|]. split; [done|].
  unfold V2.outputDone. split; [by vm_compute|]. split; [|split].
  - eexists. split; vm_compute; reflexivity.
  - eexists. split; vm_compute; reflexivity.
  - vm_compute. reflexivity.
Qed.

(** C3, amended: the second server maps a payload to 1 when its text, with
    the surrounding white space trimmed, is 'ON' in any case or is '1', and to
    0 otherwise; the first server maps exactly the text 'ON' to 1 and any
    other payload to 0. *)
Theorem mqtt_payload_rule :
  (∀ payload,
     V2.payloadValue payload =
     if decide (toUpperCase (trim payload) = "ON" ∨ trim payload = "1")
     then Num 1 else Num 0) ∧
  (∀ message,
     V1.payloadValue message = if decide (message = "ON") then Num 1 else Num 0).
Proof.
  split.
  - intros payload. unfold V2.payloadValue.
    destruct (String.eqb (toUpperCase (trim payload)) "ON") eqn:E1; simpl.
    + apply String.eqb_eq in E1. case_decide as H; [done|]. destruct H. by left.
    + apply String.eqb_neq in E1.
      destruct (String.eqb (toUpperCase (trim payload)) "1") eqn:E2.
      * apply String.eqb_eq in E2. apply (proj1 (toUpperCase_1 _)) in E2.
        case_decide as H; [done|]. destruct H. by right.
      * apply String.eqb_neq in E2.
        case_decide as H; [|done].
        destruct H as [H|H]; [done|]. destruct E2. by apply (proj2 (toUpperCase_1 _)).
  - intros message. unfold V1.payloadValue.
    destruct (String.eqb message "ON") eqn:E.
    + apply String.eqb_eq in E. by case_decide.
    + apply String.eqb_neq in E. by case_decide.
Qed.

(** C4, as stated, fails on the first server: its config load is outside any
    [try], so a missing or unparseable config file ends the start with an
    exception. *)
Lemma first_server_needs_its_config :
  V1.boot ∅ = Thrown ∧
  V1.boot {[V1.CONFIG_FILE := NotJson]} = Thrown.
Proof. split; vm_compute; reflexivity. Qed.

(** C4, amended: when the file is missing or does not parse, the second
    server loads the empty topology [{ pins: [] }] and the empty state [{}],
    and the first server loads the empty state [{}]; none of these loads can
    throw.  The config load of the first server throws in that case. *)
Theorem load_fallbacks (fs : gmap string FileContent) :
  (Spec.unreadable fs V2.CONFIG_FILE →
   V2.loadConfig fs = JObject [("pins", JArray [])]) ∧
  (Spec.unreadable fs V2.STATE_FILE → V2.loadState fs = JObject []) ∧
  (Spec.unreadable fs V1.STATE_FILE → V1.loadState fs = JObject []) ∧
  (Spec.unreadable fs V1.CONFIG_FILE →
   V1.loadConfig fs = Thrown ∧ V1.boot fs = Thrown).
Proof.
  unfold Spec.unreadable, V2.loadConfig, V2.loadState, V2.readJsonSafe,
    V1.loadState, V1.boot, V1.loadConfig, readFileSync.
  split; [|split; [|split]]; intros [H|H]; rewrite H; done.
Qed.

Lemma load_fallbacks_witness :
  V2.loadConfig ∅ = JObject [("pins", JArray [])] ∧
  V2.loadState {[V2.STATE_FILE := NotJson]} = JObject [] ∧
  V1.loadState ∅ = JObject [] ∧
  V1.loadConfig ∅ = Thrown.
Proof.
  split; [|split; [|split]].
  - apply (load_fallbacks ∅). by left.
  - apply (load_fallbacks {[V2.STATE_FILE := NotJson]}). by right.
  - apply (load_fallbacks ∅). by left.
  - apply (load_fallbacks ∅). by left.
Defined.




(** C6: a POST whose document has no 'pins' member that is a sequence is
    answered with status 400 and leaves the whole world as it was: the config
    in memory, the pin map and the files.  This holds for the second server on
    any body and for the first on any document. *)
Theorem post_without_pins_array_is_rejected :
  (∀ env w body,
     Spec.hasPinsArray body = false →
     ∃ r, V2.post_api_config env body w = (w, Normal r) ∧ status r = 400) ∧
  (∀ env w ms,
     Spec.hasPinsArray (JObject ms) = false →
     ∃ r, V1.post_api_config env (JObject ms) w = (w, Normal r) ∧ status r = 400).
Proof.
  split.
  - intros env w body Hno. unfold Spec.hasPinsArray in Hno.
    unfold V2.post_api_config.
    destruct (truthy body) eqn:Ht; simpl; [|by eexists].
    destruct (getProp body "pins") as [ps|] eqn:Hp; [|by destruct body].
    unfold mbind, M_bind, eval. destruct ps; try done; by eexists.
  - intros env w ms Hno. unfold Spec.hasPinsArray in Hno.
    unfold V1.post_api_config.
    destruct (getProp (JObject ms) "pins") as [ps|] eqn:Hp; [|done].
    unfold mbind, M_bind, eval. destruct ps; try done; by eexists.
Qed.

Lemma post_without_pins_array_is_rejected_witness :
  (∃ r, V2.post_api_config env2 (JObject [("pins", JString "17")]) world17
        = (world17, Normal r) ∧ status r = 400) ∧
  (∃ r, V2.post_api_config env2 (JObject []) world17
        = (world17, Normal r) ∧ status r = 400) ∧
  (∃ r, V1.post_api_config env1 (JObject [("pins", JObject [])]) (started1 config17)
        = (started1 config17, Normal r) ∧ status r = 400).
Proof.
  destruct post_without_pins_array_is_rejected as (H2 & H1).
  split; [|split].
  - exact (H2 env2 world17 (JObject [("pins", JString "17")]) eq_refl).
  - exact (H2 env2 world17 (JObject []) eq_refl).
  - exact (H1 env1 (started1 config17) [("pins", JObject [])] eq_refl).
Defined.



(** C8: a representable document (no undefined and no NaN inside) that is
    saved is loaded back as it was, when the file can be written: the config
    and the state of the second server through [writeJsonSafe] and
    [readJsonSafe], and the state of the first server through [saveState] and
    its load. *)
Theorem save_then_load :
  (∀ env w c,
     jsonRepresentable c = true →
     V2.write_fails env V2.CONFIG_FILE = false →
     let r := V2.writeJsonSafe env V2.CONFIG_FILE c w in
     r.2 = Normal tt ∧ V2.loadConfig (V2.files r.1) = c) ∧
  (∀ env w s,
     jsonRepresentable s = true →
     V2.write_fails env V2.STATE_FILE = false →
     let r := V2.writeJsonSafe env V2.STATE_FILE s w in
     r.2 = Normal tt ∧ V2.loadState (V2.files r.1) = s) ∧
  (∀ env w ms pin value,
     V1.savedState w = JObject ms →
     jsonRepresentable (JObject ms) = true →
     value ≠ NaN →
     V1.write_fails env V1.STATE_FILE = false →
     let r := V1.saveState env pin value w in
     r.2 = Normal tt ∧
     getProp (V1.savedState r.1) pin = Normal (JNumber value) ∧
     V1.loadState (V1.files r.1) = V1.savedState r.1).
Proof.
  assert (Hw : ∀ env file c w,
            jsonRepresentable c = true → V2.write_fails env file = false →
            V2.writeJsonSafe env file c w =
              (V2.set_files (<[file := Json c]> (V2.files w)) w, Normal tt)).
  { intros env file c w Hc Hf. unfold V2.writeJsonSafe, JSON_stringify.
    rewrite (jsonImage_representable c Hc).
    unfold mbind, M_bind, eval, modify. rewrite Hf. by destruct c. }
  split; [|split].
  - intros env w c Hc Hf. rewrite (Hw env _ c w Hc Hf). simpl. split; [done|].
    unfold V2.loadConfig, V2.readJsonSafe, readFileSync.
    by rewrite lookup_insert_eq.
  - intros env w s Hs Hf. rewrite (Hw env _ s w Hs Hf). simpl. split; [done|].
    unfold V2.loadState, V2.readJsonSafe, readFileSync.
    by rewrite lookup_insert_eq.
  - intros env w ms pin value Hs Hms Hv Hf.
    assert (Hr : jsonRepresentable (JObject (setMember pin (JNumber value) ms)) = true).
    { apply jsonRepresentable_setMember; [done | by destruct value]. }
    unfold V1.saveState.
    unfold mbind, M_bind, get, eval, modify, throw. rewrite Hs. cbn [setProp].
    unfold JSON_stringify. rewrite (jsonImage_representable _ Hr).
    rewrite Hf. cbn [fst snd V1.savedState V1.files V1.set_files V1.set_savedState getProp].
    split; [done|]. split.
    + by rewrite lookupMember_setMember_eq.
    + unfold V1.loadState, readFileSync. by rewrite lookup_insert_eq.
Qed.

Lemma save_then_load_witness :
  V2.loadConfig (V2.files (V2.writeJsonSafe env2 V2.CONFIG_FILE config22 world17).1)
    = config22 ∧
  V2.loadState (V2.files (V2.writeJsonSafe env2 V2.STATE_FILE state17 world17).1)
    = state17 ∧
  V1.loadState (V1.files (V1.saveState env1 "17" (Num 1) (started1 config17)).1)
    = state17.
Proof.
  destruct save_then_load as (H1 & H2 & H3).
  split; [|split].
  - exact (proj2 (H1 env2 world17 config22 eq_refl eq_refl)).
  - exact (proj2 (H2 env2 world17 state17 eq_refl eq_refl)).
  - destruct (H3 env1 (started1 config17) [] "17" (Num 1) eq_refl eq_refl) as (_ & _ & H);
      [done | done | exact H].
Defined.



(** C10, as stated, fails on a start without a state file: the state has no
    entry for pin 17 and there is no state file; after two toggles the level
    is 0 again, but the state and the file hold the entry [17: 0]. *)
Lemma toggle_twice_leaves_an_entry :
  let w := started1 config17 in
  let w2 := (V1.on_toggle env1 (JNumber (Num 17))
               (V1.on_toggle env1 (JNumber (Num 17)) w).1).1 in
  V1.outEntry w "17" ≠ None ∧
  getProp (V1.savedState w) "17" = Normal JUndefined ∧
  V1.files w !! V1.STATE_FILE = None ∧
  getProp (V1.savedState w2) "17" = Normal (JNumber (Num 0)) ∧
  V1.files w2 !! V1.STATE_FILE = Some (Json (JObject [("17", JNumber (Num 0))])).
Proof.
  split; [|split; [|split; [|split]]]; vm_compute; done.
Qed.

(** C10, amended: in the first server, on an output whose line and state file
    take the accesses and whose level is a 32-bit integer [x], a 'toggle'
    writes [x ^ 1], and a second 'toggle' writes [x] again: the entry of the
    pin map is what it was.  The state and the state file then hold [x] for
    the pin; this is the value from before the first toggle when the state
    held one and it was the adapter's level (a pin without a state entry gets
    one). *)
Theorem toggle_twice_restores_level (env : V1.Env) (w : V1.World) (pin : JsValue)
    (obj : V1.Entry) (x : Z) (ms : list (string * JsValue)) :
  V1.outEntry w (ToString pin) = Some obj →
  V1.gpio_value (V1.gpio obj) = Num x →
  - 2 ^ 31 ≤ x < 2 ^ 31 →
  V1.savedState w = JObject ms →
  read_throws (V1.driver env) (V1.line (V1.gpio obj)) = false →
  write_throws (V1.driver env) (V1.line (V1.gpio obj)) = false →
  V1.write_fails env V1.STATE_FILE = false →
  let key := ToString pin in
  let w1 := (V1.on_toggle env pin w).1 in
  let w2 := (V1.on_toggle env pin w1).1 in
  V1.pins w1 !! key = Some (V1.withLevel obj (Num (Z.lxor x 1))) ∧
  getProp (V1.savedState w1) key = Normal (JNumber (Num (Z.lxor x 1))) ∧
  V1.pins w2 !! key = Some obj ∧
  getProp (V1.savedState w2) key = Normal (JNumber (Num x)) ∧
  (∃ doc, V1.files w2 !! V1.STATE_FILE = Some (Json doc) ∧
          getProp doc key = Normal (JNumber (Num x))) ∧
  (getProp (V1.savedState w) key = Normal (JNumber (Num x)) →
   getProp (V1.savedState w2) key = getProp (V1.savedState w) key).
Proof.
  intros Ho Hx Hrange Hs Hr Hw Hf key w1 w2.
  destruct (V1Facts.toggle_touches env w pin obj ms Ho Hs Hr Hw Hf) as (Hp1 & Hs1 & Hf1).
  fold key in Hp1, Hs1, Hf1. fold w1 in Hp1, Hs1, Hf1.
  unfold V1.toggled in Hp1, Hs1, Hf1. cbn [V1.pins V1.savedState V1.files] in Hp1, Hs1, Hf1.
  rewrite Hx, (bitXor_1 x Hrange) in Hp1, Hs1, Hf1.
  set (obj1 := V1.withLevel obj (Num (Z.lxor x 1))) in *.
  assert (Ho1 : V1.outEntry w1 key = Some obj1).
  { unfold V1.outEntry in *. rewrite Hp1, lookup_insert_eq.
    destruct (V1.pins w !! ToString pin) as [o|]; [|done].
    destruct (V1.strictEqString (V1.direction o) "out") eqn:E; [|done].
    injection Ho as ->. unfold obj1. simpl. by rewrite E. }
  destruct (V1Facts.toggle_touches env w1 pin obj1 _ Ho1 Hs1 Hr Hw Hf) as (Hp2 & Hs2 & Hf2).
  fold key in Hp2, Hs2, Hf2. fold w2 in Hp2, Hs2, Hf2.
  unfold V1.toggled in Hp2, Hs2, Hf2. cbn [V1.pins V1.savedState V1.files] in Hp2, Hs2, Hf2.
  assert (Hb : bitXor (V1.gpio_value (V1.gpio obj1)) (Num 1) = Num x).
  { unfold obj1. simpl. rewrite (bitXor_1 _ (lxor_1_range x Hrange)).
    by rewrite lxor_1_twice. }
  rewrite Hb in Hp2, Hs2, Hf2.
  assert (Hobj : V1.withLevel obj1 (Num x) = obj).
  { unfold obj1, V1.withLevel. simpl. rewrite <- Hx. by destruct obj as [[] ? ?]. }
  rewrite Hobj in Hp2.
  assert (H2 : getProp (V1.savedState w2) key = Normal (JNumber (Num x))).
  { rewrite Hs2. simpl. by rewrite lookupMember_setMember_eq. }
  split; [by rewrite Hp1, lookup_insert_eq|].
  split; [rewrite Hs1; simpl; by rewrite lookupMember_setMember_eq|].
  split; [by rewrite Hp2, lookup_insert_eq|].
  split; [exact H2|].
  split; [|by intros ->].
  destruct (lookupMember_jsonImage key (JNumber (Num x))
              (setMember key (JNumber (Num x))
                 (setMember key (JNumber (Num (Z.lxor x 1))) ms)))
    as (ms' & Hi & Hl); [apply lookupMember_setMember_eq | done |].
  exists (JObject ms'). rewrite Hf2, lookup_insert_eq, Hi. split; [done|].
  simpl. by rewrite Hl.
Qed.

Lemma toggle_twice_restores_level_witness :
  let w := (V1.on_toggle env1 (JNumber (Num 17)) (started1 config17)).1 in
  let w2 := (V1.on_toggle env1 (JNumber (Num 17))
               (V1.on_toggle env1 (JNumber (Num 17)) w).1).1 in
  V1.pins w2 !! "17" = V1.pins w !! "17" ∧
  getProp (V1.savedState w2) "17" = getProp (V1.savedState w) "17".
Proof.
  intros w w2.
  assert (Hobj : V1.outEntry w "17" =
                 Some (V1.mkEntry (V1.mkGpio (JNumber (Num 17)) (JString "out") (Num 1) [])
                                  (JString "LED") (JString "out")))
    by (vm_compute; reflexivity).
  destruct (toggle_twice_restores_level env1 w (JNumber (Num 17)) _ 1
              [("17", JNumber (Num 1))] Hobj eq_refl ltac:(lia) eq_refl eq_refl eq_refl
              eq_refl) as (_ & _ & Hp & _ & _ & Hs).
  split.
  - etrans; [exact Hp|]. vm_compute. reflexivity.
  - apply Hs. vm_compute. reflexivity.
Defined.

(** * What the handlers leave alone

    A handler keeps a relation between the world it starts in and the world
    it ends in when each of its statements does; the rules below follow the
    structure of a statement.  With them, that a field of the world is not
    touched is read off the text of the handlers. *)

Module Keeps.

Section Rules.
Context {S : Type} (R : S → S → Prop) `{!PreOrder R}.

Lemma preserves_ret {A} (a : A) : preserves R (mret a : M S A).
Proof. intros w. simpl. reflexivity. Qed.

Lemma preserves_get : preserves R (get : M S S).
Proof. intros w. simpl. reflexivity. Qed.

Lemma preserves_eval {A} (c : Completion A) : preserves R (eval c : M S A).
Proof. intros w. simpl. reflexivity. Qed.

Lemma preserves_throw {A} : preserves R (throw : M S A).
Proof. intros w. simpl. reflexivity. Qed.

Lemma preserves_modify (f : S → S) : (∀ w, R w (f w)) → preserves R (modify f).
Proof. intros H w. apply H. Qed.

Lemma preserves_bind {A B} (m : M S A) (k : A → M S B) :
  preserves R m → (∀ a, preserves R (k a)) → preserves R (m ≫= k).
Proof.
  intros Hm Hk w. unfold mbind, M_bind. specialize (Hm w).
  destruct (m w) as [w' [a|]]; [|exact Hm].
  etrans; [exact Hm | apply Hk].
Qed.

Lemma preserves_tryCatch {A} (m h : M S A) :
  preserves R m → preserves R h → preserves R (tryCatch m h).
Proof.
  intros Hm Hh w. unfold tryCatch. specialize (Hm w).
  destruct (m w) as [w' [a|]]; [exact Hm|].
  etrans; [exact Hm | apply Hh].
Qed.

Lemma preserves_swallow (m : M S unit) : preserves R m → preserves R (swallow m).
Proof. intros Hm. apply preserves_tryCatch; [exact Hm | apply preserves_ret]. Qed.

Lemma preserves_forEach {A} (l : list A) (body : A → M S unit) :
  (∀ x, preserves R (body x)) → preserves R (forEach l body).
Proof.
  intros Hb. induction l as [|x l IH]; simpl; [apply preserves_ret|].
  apply preserves_bind; [apply Hb | intros _; exact IH].
Qed.

End Rules.

#[global] Instance unchanged_preorder {S T} (f : S → T) : PreOrder (unchanged f).
Proof.
  split; [by intros w | intros w1 w2 w3 H1 H2; unfold unchanged in *; congruence].
Qed.

End Keeps.

Import Keeps.

(** One rule, chosen by the head of the statement *)
Ltac keeps_step :=
  lazymatch goal with
  | |- preserves _ (@mret _ _ _ _) => apply preserves_ret; apply _
  | |- preserves _ get => apply preserves_get; apply _
  | |- preserves _ (eval _) => apply preserves_eval; apply _
  | |- preserves _ throw => apply preserves_throw; apply _
  | |- preserves _ (swallow _) => apply preserves_swallow; [apply _|]
  | |- preserves _ (tryCatch _ _) => apply preserves_tryCatch; [apply _| |]
  | |- preserves _ (forEach _ _) => apply preserves_forEach; [apply _|intros ?]
  | |- preserves _ (@mbind _ _ _ _ _ _) => apply preserves_bind; [apply _| |intros ?]
  | |- preserves _ (match ?x with _ => _ end) => destruct x
  end.

Module V2Keeps.
Import V2.

Section Facts.
Context (env : Env).

Ltac open_handlers :=
  unfold handle, listen, post_api_config, get_api_config, get_api_state,
    on_connection, on_setPin, on_mqtt_message, on_input_change, setupPins,
    broadcastFullState, setupPin, runWatcher, writeSync, watch, release,
    newGpio, writeJsonSafe, publishMqtt, subscribeMqttForPin, runWatcher,
    io_emit, socket_emit.

Lemma run_keeps (R : World → World → Prop) `{!PreOrder R} :
  (∀ ev, preserves R (handle env ev)) → ∀ evs w, R w (run env evs w).
Proof.
  intros H evs. unfold run. induction evs as [|ev evs IH]; intros w; simpl.
  - reflexivity.
  - etrans; [apply (H ev w) | apply IH].
Qed.

Lemma handle_keeps_broker ev :
  mqttClient env = false →
  preserves (unchanged published) (handle env ev) ∧
  preserves (unchanged subscribed) (handle env ev).
Proof.
  intros Hc. split; destruct ev;
    repeat first [keeps_step | progress (open_handlers; rewrite ?Hc; cbn [negb])];
    try (apply preserves_modify; intros ?; done).
Qed.

#[global] Instance publishedMore_preorder : PreOrder (publishedMore env).
Proof.
  split.
  - intros w. exists []. by rewrite app_nil_r.
  - intros w1 w2 w3 (l1 & H1 & F1) (l2 & H2 & F2). exists (l1 ++ l2)%list.
    split; [by rewrite H2, H1, app_assoc | by apply Forall_app].
Qed.


Lemma lookup_other_file (file f : string) (raw : FileContent) (w : World) :
  f ≠ file →
  unchanged (λ w, files w !! f) w (set_files (<[file := raw]> (files w)) w).
Proof. intros Hne. unfold unchanged. simpl. by rewrite lookup_insert_ne. Qed.

Ltac keeps_files :=
  repeat first [keeps_step | progress open_handlers];
  apply preserves_modify; intros ?;
  first [done | by apply lookup_other_file].

Lemma handle_keeps_other_files ev f :
  f ≠ CONFIG_FILE → f ≠ STATE_FILE →
  preserves (unchanged (λ w, files w !! f)) (handle env ev).
Proof. intros H1 H2. destruct ev; keeps_files. Qed.

Lemma post_keeps_state body :
  preserves (unchanged savedState) (post_api_config env body) ∧
  preserves (unchanged (λ w, files w !! STATE_FILE)) (post_api_config env body).
Proof. split; keeps_files. Qed.

Lemma set_keeps_config ev :
  match ev with SetPin _ | MqttMessage _ _ => True | _ => False end →
  preserves (unchanged config) (handle env ev) ∧
  preserves (unchanged (λ w, files w !! CONFIG_FILE)) (handle env ev).
Proof. intros H. split; destruct ev; try done; keeps_files. Qed.

Lemma others_keep_documents ev :
  match ev with
  | SetPin _ | MqttMessage _ _ | PostConfig _ => False
  | _ => True
  end →
  preserves (unchanged config) (handle env ev) ∧
  preserves (unchanged savedState) (handle env ev) ∧
  preserves (unchanged files) (handle env ev).
Proof. intros H. split; [|split]; destruct ev; try done; keeps_files. Qed.

End Facts.
End V2Keeps.

(** * Topics, read back *)

Lemma stripPrefix_Some p s r : stripPrefix p s = Some r ↔ s = p +:+ r.
Proof.
  split; [|intros ->; apply stripPrefix_app].
  revert s. induction p as [|a p IH]; intros s; simpl.
  - by intros [= ->].
  - destruct s as [|b s]; [done|].
    destruct (Ascii.eqb a b) eqn:E; [|done].
    apply Ascii.eqb_eq in E as ->. intros H.
    change (String b s = String b (p +:+ r)). by rewrite (IH s H).
Qed.

Lemma spanDigits_spec s :
  s = (spanDigits s).1 +:+ (spanDigits s).2 ∧
  allChars isDigit (spanDigits s).1 = true.
Proof.
  induction s as [|c s [IH1 IH2]]; simpl; [done|].
  destruct (isDigit c) eqn:E; [|done].
  destruct (spanDigits s) as [ds rest]. simpl in *.
  split; [|by rewrite E].
  change (String c s = String c (ds +:+ rest)). by rewrite <- IH1.
Qed.

Lemma matchSetTopic_Some prefix topic ds :
  V2.matchSetTopic prefix topic = Some ds ↔
  topic = prefix +:+ "/" +:+ ds +:+ "/set" ∧ ds ≠ "" ∧ allChars isDigit ds = true.
Proof.
  unfold V2.matchSetTopic. split.
  - destruct (stripPrefix (prefix +:+ "/") topic) as [rest|] eqn:Hp; [|done].
    apply stripPrefix_Some in Hp. simpl.
    destruct (spanDigits_spec rest) as [Hr Hd].
    destruct (spanDigits rest) as [ds' rest']. simpl in *.
    destruct ds' as [|c ds']; [done|].
    destruct (String.eqb rest' "/set") eqn:E; [|done].
    apply String.eqb_eq in E. intros [= <-]. subst rest'.
    split; [|done]. by rewrite Hp, Hr, append_assoc_string.
  - intros (-> & Hne & Hd).
    rewrite <- append_assoc_string, stripPrefix_app. simpl.
    rewrite spanDigits_app; [|done|by intros c r [= <- <-]].
    by destruct ds.
Qed.

Lemma numToString_no_digits n :
  (n = NaN ∨ ∃ z, n = Num z ∧ z < 0) →
  ∃ c s, numToString n = String c s ∧ isDigit c = false.
Proof.
  intros [->|(z & -> & Hz)]; [by exists "N"%char, "aN"|].
  destruct z as [|p|p]; [lia|lia|].
  exists "-"%char, (pretty (N.pos p)). done.
Qed.

Lemma matchSetTopic_no_digits (env : V2.Env) n :
  (n = NaN ∨ ∃ z, n = Num z ∧ z < 0) →
  V2.matchSetTopic (V2.MQTT_PREFIX env) (V2.setTopic env n) = None.
Proof.
  intros Hn. destruct (numToString_no_digits n Hn) as (c & s & Hs & Hc).
  unfold V2.matchSetTopic, V2.setTopic.
  rewrite <- append_assoc_string, stripPrefix_app, Hs. simpl. by rewrite Hc.
Qed.

(** A run of digits converts to the number it denotes, leading zeros or not. *)
Lemma parseDigits_total s acc :
  allChars isDigit s = true → ∃ z, parseDigits acc s = Some z.
Proof.
  revert acc. induction s as [|c s IH]; intros acc Hs; simpl in *; [by eexists|].
  apply andb_prop in Hs as [Hc Hs]. unfold digitValue. unfold isDigit in Hc.
  rewrite Hc. by apply IH.
Qed.

(** * The rebuild, entry by entry *)

Module V2Config.
Import V2.

Section Facts.
Context (env : Env).











(** ** The config surface *)







End Facts.
End V2Config.

Module V2Post.
Import V2.

Section Facts.
Context (env : Env).







End Facts.
End V2Post.

Module V2Set.
Import V2.

Section Facts.
Context (env : Env).


Lemma toBit_toBit x : toBit (toBit x) = toBit x.
Proof. unfold toBit. by destruct (truthyNum x). Qed.







End Facts.
End V2Set.

Module V2Input.
Import V2.

Section Facts.
Context (env : Env).


End Facts.
End V2Input.

Module V2Stop.
Import V2.

Section Facts.
Context (env : Env).

Lemma swallow_release w k e :
  pins w !! k = Some e →
  swallow (release env k) w = (set_pins (<[k := released env e]> (pins w)) w, Normal tt).
Proof.
  intros Hk. unfold swallow, tryCatch, release, released.
  unfold mbind, M_bind, get, modify, throw, mret, M_ret. rewrite Hk. simpl.
  destruct (release_throws _ _); simpl; [|done].
  rewrite insert_id by done. by destruct w.
Qed.

Lemma forEach_release_all (l : list (JsNum * Entry)) w :
  NoDup l.*1 →
  (∀ k e, (k, e) ∈ l → pins w !! k = Some e) →
  ∃ ps', forEach l (λ ke, swallow (release env ke.1)) w = (set_pins ps' w, Normal tt) ∧
    (∀ k e, (k, e) ∈ l → ps' !! k = Some (released env e)) ∧
    (∀ k, k ∉ l.*1 → ps' !! k = pins w !! k).
Proof.
  revert w. induction l as [|[k e] l IH]; intros w Hnd Hin; simpl.
  - exists (pins w). split; [by destruct w|]. split; [|done].
    intros ?? H. by apply elem_of_nil in H.
  - apply NoDup_cons in Hnd as [Hk Hnd].
    unfold mbind, M_bind.
    rewrite (swallow_release w k e) by (apply Hin; by left).
    destruct (IH (set_pins (<[k := released env e]> (pins w)) w) Hnd)
      as (ps' & -> & H1 & H2).
    { intros k' e' Hin'. simpl. rewrite lookup_insert_ne.
      - apply Hin. by right.
      - intros ->. apply Hk. apply list_elem_of_fmap. by exists (k', e'). }
    exists ps'. split; [done|]. split.
    + intros k' e' Hin'. apply elem_of_cons in Hin' as [[= -> ->]|Hin'].
      * rewrite (H2 k Hk). simpl. by rewrite lookup_insert_eq.
      * by apply H1.
    + intros k' Hk'. apply not_elem_of_cons in Hk' as [Hne Hk'].
      rewrite (H2 k' Hk'). simpl. by rewrite lookup_insert_ne.
Qed.

Lemma on_SIGINT_released w :
  on_SIGINT env w = (set_pins (released env <$> pins w) w, Normal tt).
Proof.
  unfold on_SIGINT. unfold mbind, M_bind, get.
  destruct (forEach_release_all (map_to_list (pins w)) w) as (ps' & -> & H1 & H2).
  { apply NoDup_fst_map_to_list. }
  { intros k e. apply elem_of_map_to_list. }
  f_equal. f_equal. apply map_eq. intros k. rewrite lookup_fmap.
  destruct (pins w !! k) as [e|] eqn:Hk; simpl.
  - apply H1. by apply elem_of_map_to_list.
  - rewrite H2; [done|]. intros Hin.
    apply list_elem_of_fmap in Hin as ([k' e] & -> & Hin).
    apply elem_of_map_to_list in Hin. simpl in Hk. congruence.
Qed.

End Facts.
End V2Stop.

(** * More facts about the first server *)

Module V1More.
Import V1.

Section Facts.
Context (env : Env).

(** ** The status object *)

Lemma status_fold (l : list (string * Entry)) acc :
  NoDup l.*1 →
  (∀ pin obj, (pin, obj) ∈ l → read_throws (driver env) (line (gpio obj)) = false) →
  ∃ ms',
    foldl (λ acc '(pin, obj),
             status ← acc;
             value ← readSync env (gpio obj);
             setProp status pin
               (JObject [("value", JNumber value); ("label", label obj);
                         ("direction", direction obj)]))
          (Normal (JObject acc)) l = Normal (JObject ms') ∧
    (∀ pin obj, (pin, obj) ∈ l → lookupMember pin ms' = Some (statusEntry obj)) ∧
    (∀ k, k ∉ l.*1 → lookupMember k ms' = lookupMember k acc).
Proof.
  match goal with |- context [foldl ?f _ _] => set (F := f) end.
  revert acc. induction l as [|[pin obj] l IH]; intros acc Hnd Hr; cbn [foldl].
  - exists acc. split; [done|]. split; [|done].
    intros ?? H. by apply elem_of_nil in H.
  - apply NoDup_cons in Hnd as [Hpin Hnd].
    assert (F (Normal (JObject acc)) (pin, obj)
            = Normal (JObject (setMember pin (statusEntry obj) acc))) as ->.
    { unfold F, readSync. by rewrite (Hr pin obj) by (by left). }
    destruct (IH (setMember pin (statusEntry obj) acc) Hnd) as (ms' & -> & H1 & H2).
    { intros pin' obj' Hin. apply (Hr pin' obj'). by right. }
    exists ms'. split; [done|]. split.
    + intros pin' obj' Hin. apply elem_of_cons in Hin as [[= -> ->]|Hin].
      * rewrite (H2 pin Hpin). apply lookupMember_setMember_eq.
      * by apply H1.
    + intros k Hk. apply not_elem_of_cons in Hk as [Hne Hk].
      rewrite (H2 k Hk). by apply lookupMember_setMember_ne.
Qed.

Lemma status_fold_thrown (l : list (string * Entry)) c :
  (c = Thrown ∨
   ∃ pin obj, (pin, obj) ∈ l ∧ read_throws (driver env) (line (gpio obj)) = true) →
  foldl (λ acc '(pin, obj),
           status ← acc;
           value ← readSync env (gpio obj);
           setProp status pin
             (JObject [("value", JNumber value); ("label", label obj);
                       ("direction", direction obj)]))
        c l = Thrown.
Proof.
  match goal with |- context [foldl ?f _ _] => set (F := f) end.
  revert c. induction l as [|[pin obj] l IH]; intros c H; cbn [foldl].
  - destruct H as [->|(? & ? & H & _)]; [done|]. by apply elem_of_nil in H.
  - apply IH. destruct H as [->|(pin' & obj' & Hin & Hr)]; [by left|].
    apply elem_of_cons in Hin as [[= -> ->]|Hin].
    + left. unfold F, readSync. rewrite Hr. by destruct c.
    + right. by exists pin', obj'.
Qed.

Lemma emitStatus_readable w :
  (∀ pin obj, pins w !! pin = Some obj →
     read_throws (driver env) (line (gpio obj)) = false) →
  ∃ status,
    emitStatus env w = (set_emitted (emitted w ++ [status]) w, Normal tt) ∧
    (∀ pin obj, pins w !! pin = Some obj →
       getProp status pin = Normal (statusEntry obj)) ∧
    (∀ pin, pins w !! pin = None → getProp status pin = Normal JUndefined).
Proof.
  intros Hr.
  destruct (status_fold (map_to_list (pins w)) [] (NoDup_fst_map_to_list _))
    as (ms' & Hf & H1 & H2).
  { intros pin obj Hin. apply (Hr pin obj). by apply elem_of_map_to_list. }
  exists (JObject ms'). split; [|split].
  - unfold emitStatus. unfold mbind at 1, M_bind at 1, get at 1.
    unfold mbind at 1, M_bind at 1, eval at 1. by rewrite Hf.
  - intros pin obj Hin. simpl. rewrite (H1 pin obj); [done|].
    by apply elem_of_map_to_list.
  - intros pin Hno. simpl. rewrite H2; [done|]. intros Hin.
    apply list_elem_of_fmap in Hin as ([pin' obj] & -> & Hin).
    apply elem_of_map_to_list in Hin. simpl in Hno. congruence.
Qed.

Lemma emitStatus_unreadable w pin obj :
  pins w !! pin = Some obj →
  read_throws (driver env) (line (gpio obj)) = true →
  emitStatus env w = (w, Thrown).
Proof.
  intros Hin Hr. unfold emitStatus. unfold mbind at 1, M_bind at 1, get at 1.
  unfold mbind at 1, M_bind at 1, eval at 1.
  rewrite status_fold_thrown; [done|]. right. exists pin, obj.
  split; [by apply elem_of_map_to_list | done].
Qed.

(** ** A set request on an output *)

Lemma outEntry_Some w pin obj :
  outEntry w pin = Some obj → pins w !! pin = Some obj ∧ direction obj = JString "out".
Proof.
  unfold outEntry. destruct (pins w !! pin) as [o|]; [|done].
  destruct (strictEqString (direction o) "out") eqn:E; [|done].
  intros [= ->]. split; [done|].
  unfold strictEqString in E. destruct (direction obj); try done.
  by apply String.eqb_eq in E as ->.
Qed.

End Facts.
End V1More.

Module V1Set.
Import V1.

Section Facts.
Context (env : Env).

Lemma on_toggle_setOutput w pin obj :
  outEntry w (ToString pin) = Some obj →
  on_toggle env pin w =
    (level ← eval (readSync env (gpio obj));
     setOutput env (ToString pin) obj (bitXor level (Num 1))) w.
Proof.
  intros Ho. unfold on_toggle. unfold mbind at 1, M_bind at 1, get at 1. by rewrite Ho.
Qed.

Lemma on_mqtt_message_setOutput w topic message pin obj :
  searchSetTopic topic = Some pin →
  outEntry w pin = Some obj →
  on_mqtt_message env topic message w = setOutput env pin obj (payloadValue message) w.
Proof.
  intros Hm Ho. unfold on_mqtt_message. rewrite Hm.
  unfold mbind at 1, M_bind at 1, get at 1. by rewrite Ho.
Qed.

(** The driver refuses the write: nothing has happened yet. *)
Lemma setOutput_write_throws w pin obj v :
  write_throws (driver env) (line (gpio obj)) = true →
  setOutput env pin obj v w = (w, Thrown).
Proof.
  intros Hw. unfold setOutput, writePin, writeSync. rewrite Hw.
  by unfold mbind, M_bind, eval.
Qed.

(** The disk refuses the state file: the adapter and the state in memory have
    changed, and nothing is sent. *)
Lemma setOutput_disk_fails w pin obj v ms :
  savedState w = JObject ms →
  write_throws (driver env) (line (gpio obj)) = false →
  write_fails env STATE_FILE = true →
  setOutput env pin obj v w = (written pin obj v ms w, Thrown).
Proof.
  intros Hs Hw Hf. unfold setOutput, writePin, writeSync. rewrite Hw.
  unfold mbind at 1, M_bind at 1.
  unfold mbind at 1, M_bind at 1, eval at 1. unfold modify at 1.
  unfold mbind at 1, M_bind at 1.
  unfold saveState.
  unfold mbind at 1, M_bind at 1, get at 1.
  unfold mbind at 1, M_bind at 1, eval at 1.
  cbn [savedState set_pins]. rewrite Hs. cbn [setProp].
  unfold mbind at 1, M_bind at 1.
  unfold mbind at 1, M_bind at 1, modify at 1.
  unfold mbind at 1, M_bind at 1, eval at 1. cbn [JSON_stringify].
  rewrite Hf. done.
Qed.

Lemma setOutput_saved w pin obj v ms :
  savedState w = JObject ms →
  write_throws (driver env) (line (gpio obj)) = false →
  write_fails env STATE_FILE = false →
  setOutput env pin obj v w =
    (emitStatus env ;; publish (stateTopic pin) (onOff v)) (saved pin obj v ms w).
Proof.
  intros Hs Hw Hf. unfold setOutput, writePin, writeSync. rewrite Hw.
  unfold mbind at 1, M_bind at 1.
  unfold mbind at 1, M_bind at 1, eval at 1. unfold modify at 1.
  unfold mbind at 1, M_bind at 1.
  unfold saveState.
  unfold mbind at 1, M_bind at 1, get at 1.
  unfold mbind at 1, M_bind at 1, eval at 1.
  cbn [savedState set_pins]. rewrite Hs. cbn [setProp].
  unfold mbind at 1, M_bind at 1.
  unfold mbind at 1, M_bind at 1, modify at 1.
  unfold mbind at 1, M_bind at 1, eval at 1. cbn [JSON_stringify].
  rewrite Hf. unfold modify at 1. done.
Qed.

(** All lines readable: the whole request. *)
Lemma setOutput_done w pin obj v ms :
  pins w !! pin = Some obj →
  savedState w = JObject ms →
  (∀ pin' obj', pins w !! pin' = Some obj' →
     read_throws (driver env) (line (gpio obj')) = false) →
  write_throws (driver env) (line (gpio obj)) = false →
  write_fails env STATE_FILE = false →
  ∃ status,
    setOutput env pin obj v w =
      (set_published (published w ++ [mkPublish (stateTopic pin) (onOff v) false])
         (set_emitted (emitted w ++ [status]) (saved pin obj v ms w)),
       Normal tt) ∧
    getProp status pin = Normal (statusEntry (withLevel obj v)) ∧
    (∀ pin' obj', pin' ≠ pin → pins w !! pin' = Some obj' →
       getProp status pin' = Normal (statusEntry obj')).
Proof.
  intros Hp Hs Hr Hw Hf.
  rewrite (setOutput_saved w pin obj v ms Hs Hw Hf).
  destruct (V1More.emitStatus_readable env (saved pin obj v ms w)) as (status & He & H1 & _).
  { intros pin' obj'. unfold saved, written. cbn [pins set_files set_savedState set_pins].
    destruct (decide (pin = pin')) as [<-|Hne].
    - rewrite lookup_insert_eq. intros [= <-]. exact (Hr pin obj Hp).
    - rewrite lookup_insert_ne by done. apply Hr. }
  exists status. split; [|split].
  - unfold mbind, M_bind. rewrite He. done.
  - apply H1. unfold saved, written. cbn [pins set_files set_savedState set_pins].
    by rewrite lookup_insert_eq.
  - intros pin' obj' Hne Hin. apply H1.
    unfold saved, written. cbn [pins set_files set_savedState set_pins].
    by rewrite lookup_insert_ne.
Qed.

End Facts.
End V1Set.

Module V1Input.
Import V1.

Section Facts.
Context (env : Env).

Lemma on_input_change_watched_v1 w pin obj number value :
  pins w !! pin = Some obj →
  gpio_watchers (gpio obj) = [ForwardInput number] →
  on_input_change env pin value w =
    (emitStatus env ;;
     publish (stateTopic (ToString number)) (onOff value))
      (set_pins (<[pin := withLevel obj value]> (pins w)) w).
Proof.
  intros He Hw. unfold on_input_change.
  unfold mbind at 1, M_bind at 1, get at 1. rewrite He. cbv zeta.
  unfold mbind at 1, M_bind at 1, modify at 1.
  unfold withLevel. rewrite Hw. cbn [forEach runWatcher].
  unfold stateTopic, onOff.
  unfold mbind at 1, M_bind at 1.
  destruct ((emitStatus env ;; publish _ _) _) as [w' []] eqn:E; [by destruct a|done].
Qed.

End Facts.
End V1Input.

Module V1Config.
Import V1.

Section Facts.
Context (env : Env).

Ltac open_handlers :=
  unfold post_api_config, setupGpioPins, setupGpioPin, on_mqtt_connect, publish.





(** ** The config surface *)

Lemma post_api_config_disk_fails w bms items :
  lookupMember "pins" bms = Some (JArray items) →
  write_fails env CONFIG_FILE = true →
  post_api_config env (JObject bms) w =
    (w, Normal (mkResponse 500 (JObject [("error", JString "Failed to save config")]))).
Proof.
  intros Hp Hf. unfold post_api_config. simpl. rewrite Hp. simpl.
  unfold mbind at 1, M_bind at 1, eval at 1. cbn [isArray negb].
  unfold tryCatch.
  unfold mbind at 1, M_bind at 1.
  unfold mbind at 1, M_bind at 1, eval at 1.
  unfold mbind at 1, M_bind at 1. rewrite Hf. done.
Qed.

Lemma post_api_config_saved w bms items :
  lookupMember "pins" bms = Some (JArray items) →
  write_fails env CONFIG_FILE = false →
  let body := JObject bms in
  let w1 := set_config body
              (set_files (<[CONFIG_FILE := Json (jsonImage body)]> (files w)) w) in
  post_api_config env body w =
    match setupGpioPins env w1 with
    | (w2, Normal _) =>
        (w2, Normal (mkResponse 200 (JObject [("success", JBool true)])))
    | (w2, Thrown) =>
        (w2, Normal (mkResponse 500 (JObject [("error", JString "Failed to save config")])))
    end.
Proof.
  intros Hp Hf body w1. unfold post_api_config. cbn [getProp body]. rewrite Hp.
  unfold mbind, M_bind, eval, tryCatch, modify, throw. cbn -[setupGpioPins jsonImage].
  rewrite Hf. unfold w1, body.
  destruct (setupGpioPins env _) as [w2 [[]|]]; done.
Qed.

(** An entry that [setupGpioPin] cannot take: it is null or undefined, or the
    driver refuses its line. *)
Lemma setupGpioPin_rejected w p :
  (p = JUndefined ∨ p = JNull ∨
   ctor_throws (driver env) (pinKey p) = true) →
  setupGpioPin env p w = (w, Thrown).
Proof.
  intros H. unfold setupGpioPin.
  destruct (getProp p "number") as [number|] eqn:Hn.
  2:{ by unfold mbind, M_bind, eval. }
  assert (Hc : ctor_throws (driver env) (ToString number) = true).
  { destruct H as [->|[->|H]]; [done|done|]. unfold pinKey in H. by rewrite Hn in H. }
  assert (∃ l d, getProp p "label" = Normal l ∧ getProp p "direction" = Normal d)
    as (l & d & -> & ->) by (destruct p; try done; by eexists _, _).
  unfold mbind at 1, M_bind at 1, eval at 1.
  unfold mbind at 1, M_bind at 1, eval at 1.
  unfold mbind at 1, M_bind at 1, eval at 1.
  unfold mbind at 1, M_bind at 1, eval at 1, newGpio. by rewrite Hc.
Qed.

Lemma setupGpioPins_first_rejected w p rest :
  getProp (config w) "pins" = Normal (JArray (p :: rest)) →
  (p = JUndefined ∨ p = JNull ∨ ctor_throws (driver env) (pinKey p) = true) →
  setupGpioPins env w = (set_pins ∅ w, Thrown).
Proof.
  intros Hc Hp. unfold setupGpioPins.
  unfold mbind at 1, M_bind at 1, modify at 1.
  unfold mbind at 1, M_bind at 1, modify at 1.
  unfold mbind at 1, M_bind at 1, get at 1.
  unfold mbind at 1, M_bind at 1, eval at 1.
  cbn [config set_pins]. rewrite Hc.
  unfold mbind at 1, M_bind at 1, eval at 1. cbn [arrayItems forEach].
  unfold mbind at 1, M_bind at 1.
  by rewrite (setupGpioPin_rejected _ p Hp).
Qed.

End Facts.
End V1Config.

(** ** The set topics of the first server *)

Lemma matchSetHere_Some s ds :
  V1.matchSetHere s = Some ds ↔
  ds ≠ "" ∧ allChars isDigit ds = true ∧
  ∃ post, s = "home/gpio/" +:+ ds +:+ "/set" +:+ post.
Proof.
  unfold V1.matchSetHere. split.
  - destruct (stripPrefix "home/gpio/" s) as [rest|] eqn:Hp; [|done].
    apply stripPrefix_Some in Hp. cbn [mbind option_bind].
    destruct (spanDigits_spec rest) as [Hr Hd].
    destruct (spanDigits rest) as [ds' rest']. cbn [fst snd] in *.
    destruct ds' as [|c ds']; [done|].
    destruct (stripPrefix "/set" rest') as [post|] eqn:Hs; [|done].
    apply stripPrefix_Some in Hs. intros [= <-].
    split; [done|]. split; [done|]. exists post. by rewrite Hp, Hr, Hs.
  - intros (Hne & Hd & post & ->).
    rewrite stripPrefix_app. cbn [mbind option_bind].
    rewrite spanDigits_app; [|done|by intros c r [= <- <-]].
    rewrite stripPrefix_app. by destruct ds.
Qed.

Lemma searchSetTopic_Some topic ds :
  V1.searchSetTopic topic = Some ds →
  ds ≠ "" ∧ allChars isDigit ds = true ∧
  ∃ pre post, topic = pre +:+ "home/gpio/" +:+ ds +:+ "/set" +:+ post.
Proof.
  induction topic as [|c t IH].
  - intros H. vm_compute in H. done.
  - change (V1.searchSetTopic (String c t))
      with (match V1.matchSetHere (String c t) with
            | Some ds => Some ds
            | None => V1.searchSetTopic t
            end).
    destruct (V1.matchSetHere (String c t)) as [ds'|] eqn:Hm.
    + intros [= ->]. apply matchSetHere_Some in Hm as (Hne & Hd & post & Hm).
      split; [done|]. split; [done|]. by exists "", post.
    + intros H. destruct (IH H) as (Hne & Hd & pre & post & ->).
      split; [done|]. split; [done|]. by exists (String c pre), post.
Qed.

Lemma searchSetTopic_finds pre ds post :
  ds ≠ "" → allChars isDigit ds = true →
  ∃ ds', V1.searchSetTopic (pre +:+ "home/gpio/" +:+ ds +:+ "/set" +:+ post) = Some ds'.
Proof.
  intros Hne Hd. induction pre as [|c pre [ds' IH]].
  - exists ds. apply searchSetTopic_here. apply matchSetHere_Some.
    split; [done|]. split; [done|]. by exists post.
  - change (String c pre +:+ ?r) with (String c (pre +:+ r)).
    change (V1.searchSetTopic (String c ?t))
      with (match V1.matchSetHere (String c t) with
            | Some ds => Some ds
            | None => V1.searchSetTopic t
            end).
    destruct (V1.matchSetHere _); [by eexists|]. by exists ds'.
Qed.

(** * Further properties of the second server *)

(** X1: from a start whose state file holds an object, or cannot be read, the
    second server keeps its pin map and its state well formed on every run of
    events, whatever the driver and the disk refuse: each entry sits under its
    own number, its adapter and its meta agree on the number and the
    direction, an output has no watcher, and the state in memory is an
    object. *)
Theorem pin_map_stays_well_formed (env : V2.Env) (fs : gmap string FileContent)
    (evs : list V2.Event) :
  isObject (V2.loadState fs) = true →
  let w := V2.run env evs (V2.boot fs) in
  (∀ n e, V2.pins w !! n = Some e →
     V2.meta_number (V2.meta e) = n ∧
     V2.gpio_number (V2.gpio e) = n ∧
     V2.gpio_direction (V2.gpio e) = V2.meta_direction (V2.meta e) ∧
     (V2.meta_direction (V2.meta e) = V2.Out → V2.gpio_watchers (V2.gpio e) = [])) ∧
  isObject (V2.savedState w) = true.
Proof. intros Hs. exact (V2Invariant.invariant_reachable env fs evs Hs). Qed.

Lemma pin_map_stays_well_formed_witness :
  let w := V2.run env2
             [V2.Listening;
              V2.SetPin (JObject [("number", JNumber (Num 17)); ("value", JNumber (Num 1))]);
              V2.PostConfig config22;
              V2.InputChange (Num 22) (Num 1)]
             (V2.boot {[V2.CONFIG_FILE := Json config17]}) in
  (∀ n e, V2.pins w !! n = Some e →
     V2.meta_number (V2.meta e) = n ∧
     V2.gpio_number (V2.gpio e) = n ∧
     V2.gpio_direction (V2.gpio e) = V2.meta_direction (V2.meta e) ∧
     (V2.meta_direction (V2.meta e) = V2.Out → V2.gpio_watchers (V2.gpio e) = [])) ∧
  isObject (V2.savedState w) = true.
Proof.
  exact (pin_map_stays_well_formed env2 {[V2.CONFIG_FILE := Json config17]} _ eq_refl).
Defined.



(** X3: without [MQTT_URL] the second server sends nothing to a broker: on
    every run of events, from any world, the lists of published messages and
    of subscriptions are what they were. *)
Theorem no_client_no_broker_traffic (env : V2.Env) (evs : list V2.Event) (w : V2.World) :
  V2.mqttClient env = false →
  V2.published (V2.run env evs w) = V2.published w ∧
  V2.subscribed (V2.run env evs w) = V2.subscribed w.
Proof.
  intros Hc. split.
  - apply (V2Keeps.run_keeps env (unchanged V2.published)).
    intros ev. by apply V2Keeps.handle_keeps_broker.
  - apply (V2Keeps.run_keeps env (unchanged V2.subscribed)).
    intros ev. by apply V2Keeps.handle_keeps_broker.
Qed.

Lemma no_client_no_broker_traffic_witness :
  let w := V2.run env2_no_mqtt
             [V2.Listening;
              V2.SetPin (JObject [("number", JNumber (Num 17)); ("value", JNumber (Num 1))]);
              V2.MqttMessage "home/gpio/17/set" "ON"]
             (V2.boot {[V2.CONFIG_FILE := Json config17]}) in
  V2.published w = [] ∧ V2.subscribed w = [].
Proof.
  exact (no_client_no_broker_traffic env2_no_mqtt _
           (V2.boot {[V2.CONFIG_FILE := Json config17]}) eq_refl).
Defined.


(** X5: which documents an event of the second server can change.  No event
    writes a file other than the config file and the state file.  A config
    POST leaves the state in memory and the state file as they were; a
    'setPin' and a broker message leave the config and the config file; and
    every other event (the start, a new session, a level change on an input,
    a GET) leaves the config, the state and all files: an input level is never
    saved, and a rebuild never alters the saved state. *)
Theorem documents_change_only_by_their_requests (env : V2.Env) (ev : V2.Event)
    (w : V2.World) :
  let w' := (V2.handle env ev w).1 in
  (∀ f, f ≠ V2.CONFIG_FILE → f ≠ V2.STATE_FILE → V2.files w' !! f = V2.files w !! f) ∧
  match ev with
  | V2.PostConfig _ =>
      V2.savedState w' = V2.savedState w ∧
      V2.files w' !! V2.STATE_FILE = V2.files w !! V2.STATE_FILE
  | V2.SetPin _ | V2.MqttMessage _ _ =>
      V2.config w' = V2.config w ∧
      V2.files w' !! V2.CONFIG_FILE = V2.files w !! V2.CONFIG_FILE
  | _ =>
      V2.config w' = V2.config w ∧ V2.savedState w' = V2.savedState w ∧
      V2.files w' = V2.files w
  end.
Proof.
  split.
  - intros f H1 H2. exact (V2Keeps.handle_keeps_other_files env ev f H1 H2 w).
  - assert (Hothers : ∀ ev', match ev' with
                               | V2.SetPin _ | V2.MqttMessage _ _ | V2.PostConfig _ => False
                               | _ => True
                               end →
              V2.config (V2.handle env ev' w).1 = V2.config w ∧
              V2.savedState (V2.handle env ev' w).1 = V2.savedState w ∧
              V2.files (V2.handle env ev' w).1 = V2.files w).
    { intros ev' Hev'.
      destruct (V2Keeps.others_keep_documents env ev' Hev') as (H1 & H2 & H3).
      exact (conj (H1 w) (conj (H2 w) (H3 w))). }
    destruct ev as [|id|msg|topic payload|key value| |body|];
      try (by apply Hothers).
    + destruct (V2Keeps.set_keeps_config env (V2.SetPin msg) I) as (H1 & H2).
      exact (conj (H1 w) (H2 w)).
    + destruct (V2Keeps.set_keeps_config env (V2.MqttMessage topic payload) I) as (H1 & H2).
      exact (conj (H1 w) (H2 w)).
    + destruct (V2Keeps.post_keeps_state env body) as (H1 & H2).
      unfold V2.handle. split.
      * assert (H := H1 w). unfold unchanged in H. unfold mbind, M_bind.
        by destruct (V2.post_api_config env body w) as [? []].
      * assert (H := H2 w). unfold unchanged in H. unfold mbind, M_bind.
        by destruct (V2.post_api_config env body w) as [? []].
Qed.

(** X6: the second server's handler of broker messages takes a topic as a set
    topic exactly when it is the prefix, a slash, a non-empty run of decimal
    digits and '/set', with nothing before or after; the digits are what it
    captures.  On any other topic the handler changes nothing. *)
Theorem set_topic_is_matched_exactly :
  (∀ prefix topic ds,
     V2.matchSetTopic prefix topic = Some ds ↔
     topic = prefix +:+ "/" +:+ ds +:+ "/set" ∧ ds ≠ "" ∧ allChars isDigit ds = true) ∧
  (∀ env topic payload w,
     (∀ ds, allChars isDigit ds = true →
            topic ≠ V2.MQTT_PREFIX env +:+ "/" +:+ ds +:+ "/set") →
     V2.on_mqtt_message env topic payload w = (w, Normal tt)).
Proof.
  split; [apply matchSetTopic_Some|].
  intros env topic payload w Hno. unfold V2.on_mqtt_message.
  destruct (V2.mqttClient env); [|done]. cbn [negb].
  destruct (V2.matchSetTopic (V2.MQTT_PREFIX env) topic) as [ds|] eqn:Hm; [|done].
  apply matchSetTopic_Some in Hm as (Ht & _ & Hd). by destruct (Hno ds Hd).
Qed.

Lemma set_topic_is_matched_exactly_witness :
  V2.matchSetTopic "home/gpio" "home/gpio/17/set" = Some "17" ∧
  V2.on_mqtt_message env2 "home/gpio/17/set/x" "ON" world17 = (world17, Normal tt).
Proof.
  destruct set_topic_is_matched_exactly as [H1 H2]. split.
  - apply (H1 "home/gpio" "home/gpio/17/set" "17"). by split.
  - apply (H2 env2 "home/gpio/17/set/x" "ON" world17).
    intros ds Hd Heq.
    assert (Hm : V2.matchSetTopic "home/gpio" "home/gpio/17/set/x" = Some ds).
    { apply matchSetTopic_Some. split; [exact Heq|]. split; [|done].
      intros ->. vm_compute in Heq. discriminate. }
    vm_compute in Hm. discriminate.
Defined.

(** X7: the topic that the second server subscribes to for a pin,
    '<prefix>/<n>/set', leads back to the pin exactly when its number is a
    non-negative integer: for such a number (below 2^53, where a Number holds
    every integer) the handler captures the digits of [n] and converts them
    to [n].  For a negative number and for NaN (the number of an entry
    without one) the handler does not take the topic, and a message on it
    changes nothing: such a pin can be set by 'setPin' only. *)
Theorem own_set_topic_leads_back (env : V2.Env) (n : JsNum) :
  match n with
  | Num z =>
      (0 ≤ z < 2 ^ 53 →
       V2.matchSetTopic (V2.MQTT_PREFIX env) (V2.setTopic env n) = Some (numToString n) ∧
       StringToNumber (numToString n) = n) ∧
      (z < 0 →
       ∀ payload w, V2.on_mqtt_message env (V2.setTopic env n) payload w = (w, Normal tt))
  | NaN =>
      ∀ payload w, V2.on_mqtt_message env (V2.setTopic env n) payload w = (w, Normal tt)
  end.
Proof.
  assert (Hbad : (n = NaN ∨ ∃ z, n = Num z ∧ z < 0) →
            ∀ payload w, V2.on_mqtt_message env (V2.setTopic env n) payload w
                         = (w, Normal tt)).
  { intros Hn payload w. unfold V2.on_mqtt_message.
    destruct (V2.mqttClient env); [|done]. cbn [negb].
    by rewrite (matchSetTopic_no_digits env n Hn). }
  destruct n as [|z]; [apply Hbad; by left|].
  split.
  - intros [Hz _]. exact (setTopic_addresses_pin env z Hz).
  - intros Hz. apply Hbad. right. by exists z.
Qed.

Lemma own_set_topic_leads_back_witness :
  (V2.matchSetTopic "home/gpio" "home/gpio/17/set" = Some "17" ∧
   StringToNumber "17" = Num 17) ∧
  V2.on_mqtt_message env2 "home/gpio/-1/set" "ON" world17 = (world17, Normal tt) ∧
  V2.on_mqtt_message env2 "home/gpio/NaN/set" "ON" world17 = (world17, Normal tt).
Proof.
  split; [|split].
  - apply (proj1 (own_set_topic_leads_back env2 (Num 17))). lia.
  - apply (proj2 (own_set_topic_leads_back env2 (Num (-1)))). lia.
  - exact (own_set_topic_leads_back env2 NaN "ON" world17).
Defined.

(** X8: the handler of broker messages converts the digits of the topic to a
    number, so a topic whose digits denote [z] (below 2^53), leading zeros
    included, acts exactly as the topic '<prefix>/<z>/set' does. *)
Theorem set_topic_digits_are_a_number (env : V2.Env) (ds : string) (z : Z)
    (payload : string) (w : V2.World) :
  ds ≠ "" → allChars isDigit ds = true → parseDigits 0 ds = Some z → z < 2 ^ 53 →
  V2.on_mqtt_message env (V2.MQTT_PREFIX env +:+ "/" +:+ ds +:+ "/set") payload w
  = V2.on_mqtt_message env (V2.setTopic env (Num z)) payload w.
Proof.
  intros Hne Hd Hp _.
  assert (Hz : 0 ≤ z).
  { assert (Hgen : ∀ s acc r, 0 ≤ acc → parseDigits acc s = Some r → 0 ≤ r).
    { induction s as [|c s IH]; intros acc r Hacc; simpl; [by intros [= <-]|].
      unfold digitValue. destruct (_ && _); [|done]. apply IH. lia. }
    by apply (Hgen ds 0 z). }
  destruct (setTopic_addresses_pin env z Hz) as [Hm Hn].
  unfold V2.on_mqtt_message. rewrite Hm.
  rewrite (proj2 (matchSetTopic_Some (V2.MQTT_PREFIX env) _ ds)) by done.
  by rewrite Hn, (StringToNumber_digits ds z Hd Hne Hp).
Qed.

Lemma set_topic_digits_are_a_number_witness :
  V2.on_mqtt_message env2 "home/gpio/017/set" "ON" world17
  = V2.on_mqtt_message env2 "home/gpio/17/set" "ON" world17.
Proof.
  apply (set_topic_digits_are_a_number env2 "017" 17 "ON" world17);
    [discriminate | reflexivity | reflexivity | lia].
Defined.






















(** X20: the stop of the second server.  The SIGINT handler returns normally
    whatever the driver does: a release that throws does not stop the release
    of the other lines.  Afterwards the pin map has the same numbers, every
    adapter whose line the driver let go of has no watcher left and is
    otherwise as it was, and the config, the state, the files and what was
    sent are untouched. *)
Theorem stop_releases_every_line (env : V2.Env) (w : V2.World) :
  ∃ w', V2.on_SIGINT env w = (w', Normal tt) ∧
    (∀ n, V2.pins w' !! n = None ↔ V2.pins w !! n = None) ∧
    (∀ n e, V2.pins w !! n = Some e →
       release_throws (V2.driver env) (V2.gpio_number (V2.gpio e)) = false →
       V2.pins w' !! n =
         Some (V2.mkEntry
                 (V2.mkGpio (V2.gpio_number (V2.gpio e)) (V2.gpio_direction (V2.gpio e))
                    (V2.gpio_value (V2.gpio e)) [])
                 (V2.meta e))) ∧
    V2.config w' = V2.config w ∧ V2.savedState w' = V2.savedState w ∧
    V2.files w' = V2.files w ∧ V2.emitted w' = V2.emitted w ∧
    V2.published w' = V2.published w ∧ V2.subscribed w' = V2.subscribed w.
Proof.
  eexists. split; [apply V2Stop.on_SIGINT_released|].
  cbn [V2.pins V2.set_pins]. split; [|split; [|done]].
  - intros n. rewrite lookup_fmap. by destruct (V2.pins w !! n).
  - intros n e He Hr. rewrite lookup_fmap, He. cbn. unfold V2.released. by rewrite Hr.
Qed.

Lemma stop_releases_every_line_witness :
  ∃ w', V2.on_SIGINT env2 world22 = (w', Normal tt) ∧
        V2.pins w' !! Num 22 =
          Some (V2.mkEntry (V2.mkGpio (Num 22) V2.In (Num 0) [])
                           (V2.mkMeta (Num 22) V2.In (JString "Button"))).
Proof.
  destruct (stop_releases_every_line env2 world22) as (w' & Hrun & _ & Hall & _).
  exists w'. split; [exact Hrun|].
  exact (Hall (Num 22) (V2.freshEntry env2 [] (Num 22) V2.In (JString "Button"))
           eq_refl eq_refl).
Defined.

(** * Further properties of the first server *)

(** X21: the status object of the first server is all or nothing.  When every
    line of the pin map can be read, [emitStatus] sends one object to all
    sessions, with, for every entry of the pin map, the level read from its
    line, its label and its direction under the pin's name, and no member for
    a name that is not in the map; nothing else changes.  When the read of
    one line throws, [emitStatus] throws and sends nothing; so does the
    handler of a new session, which is [emitStatus]. *)
Theorem status_is_all_or_nothing (env : V1.Env) (w : V1.World) :
  ((∀ pin obj, V1.pins w !! pin = Some obj →
      read_throws (V1.driver env) (V1.line (V1.gpio obj)) = false) →
   ∃ status,
     V1.emitStatus env w = (V1.set_emitted (V1.emitted w ++ [status]) w, Normal tt) ∧
     (∀ pin obj, V1.pins w !! pin = Some obj →
        getProp status pin =
          Normal (JObject [("value", JNumber (V1.gpio_value (V1.gpio obj)));
                           ("label", V1.label obj); ("direction", V1.direction obj)])) ∧
     (∀ pin, V1.pins w !! pin = None → getProp status pin = Normal JUndefined)) ∧
  (∀ pin obj, V1.pins w !! pin = Some obj →
     read_throws (V1.driver env) (V1.line (V1.gpio obj)) = true →
     V1.emitStatus env w = (w, Thrown) ∧ V1.on_connection env w = (w, Thrown)).
Proof.
  split.
  - apply V1More.emitStatus_readable.
  - intros pin obj Hin Hr. split; exact (V1More.emitStatus_unreadable env w pin obj Hin Hr).
Qed.

Lemma status_is_all_or_nothing_witness :
  let blind := V1.mkEnv
                 (mkDriver (λ _, false) (λ _, false) (λ _, true) (λ _, false) (λ _, false))
                 (λ _, false) in
  (∃ status,
     V1.emitStatus env1 (started1 config17)
     = (V1.set_emitted (V1.emitted (started1 config17) ++ [status]) (started1 config17),
        Normal tt) ∧
     getProp status "17" =
       Normal (JObject [("value", JNumber (Num 0)); ("label", JString "LED");
                        ("direction", JString "out")])) ∧
  V1.on_connection blind (started1 config17) = (started1 config17, Thrown).
Proof.
  intros blind.
  assert (Hobj : V1.pins (started1 config17) !! "17"
                 = Some (V1.mkEntry (V1.mkGpio (JNumber (Num 17)) (JString "out") (Num 0) [])
                           (JString "LED") (JString "out")))
    by (vm_compute; reflexivity).
  split.
  - destruct (proj1 (status_is_all_or_nothing env1 (started1 config17)))
      as (status & Hrun & Hall & _); [reflexivity|].
    exists status. split; [exact Hrun|]. exact (Hall "17" _ Hobj).
  - exact (proj2 (proj2 (status_is_all_or_nothing blind (started1 config17))
                    "17" _ Hobj eq_refl)).
Defined.

(** X22: a broker message that sets an output of the first server.  For a
    topic in which the handler finds the pin name [pin], an entry of direction
    'out' under this name, working lines and a working disk, the handler
    returns normally; the adapter then holds 1 when the payload is exactly
    'ON' and 0 otherwise, the state in memory and the state file hold this
    value under [pin], one status object went to all sessions and reports the
    new value for [pin] and the entries of the other pins as they were, and
    one publish, not retained, of 'ON' or 'OFF' went to
    'home/gpio/<pin>/state'. *)
Theorem first_server_message_sets_output (env : V1.Env) (w : V1.World)
    (topic message pin : string) (obj : V1.Entry) (ms : list (string * JsValue)) :
  V1.searchSetTopic topic = Some pin →
  V1.outEntry w pin = Some obj →
  V1.savedState w = JObject ms →
  (∀ pin' obj', V1.pins w !! pin' = Some obj' →
     read_throws (V1.driver env) (V1.line (V1.gpio obj')) = false) →
  write_throws (V1.driver env) (V1.line (V1.gpio obj)) = false →
  V1.write_fails env V1.STATE_FILE = false →
  let v := if decide (message = "ON") then Num 1 else Num 0 in
  ∃ w' status,
    V1.on_mqtt_message env topic message w = (w', Normal tt) ∧
    V1.pins w' = <[pin := V1.withLevel obj v]> (V1.pins w) ∧
    V1.savedState w' = JObject (setMember pin (JNumber v) ms) ∧
    V1.files w' =
      <[V1.STATE_FILE := Json (jsonImage (JObject (setMember pin (JNumber v) ms)))]>
        (V1.files w) ∧
    V1.emitted w' = (V1.emitted w ++ [status])%list ∧
    getProp status pin = Normal (V1.statusEntry (V1.withLevel obj v)) ∧
    (∀ pin' obj', pin' ≠ pin → V1.pins w !! pin' = Some obj' →
       getProp status pin' = Normal (V1.statusEntry obj')) ∧
    V1.published w' =
      (V1.published w ++
       [mkPublish ("home/gpio/" +:+ pin +:+ "/state")
                  (if decide (message = "ON") then "ON" else "OFF") false])%list ∧
    V1.config w' = V1.config w ∧ V1.subscribed w' = V1.subscribed w.
Proof.
  intros Hm Ho Hs Hr Hw Hf v.
  destruct (V1More.outEntry_Some w pin obj Ho) as [Hp _].
  assert (Hv : V1.payloadValue message = v).
  { unfold V1.payloadValue, v. destruct (String.eqb message "ON") eqn:E.
    - apply String.eqb_eq in E. by case_decide.
    - apply String.eqb_neq in E. by case_decide. }
  rewrite (V1Set.on_mqtt_message_setOutput env w topic message pin obj Hm Ho), Hv.
  destruct (V1Set.setOutput_done env w pin obj v ms Hp Hs Hr Hw Hf)
    as (status & -> & H1 & H2).
  eexists _, status. split; [done|].
  cbn [V1.pins V1.savedState V1.files V1.emitted V1.published V1.config V1.subscribed
       V1.set_published V1.set_emitted V1.saved V1.written V1.set_files
       V1.set_savedState V1.set_pins].
  split; [done|]. split; [done|]. split; [done|]. split; [done|].
  split; [exact H1|]. split; [exact H2|]. split; [|done].
  unfold V1.stateTopic, V1.onOff, v. by case_decide.
Qed.

Lemma first_server_message_sets_output_witness :
  ∃ w' status,
    V1.on_mqtt_message env1 "home/gpio/17/set" "ON" (started1 config17) = (w', Normal tt) ∧
    V1.savedState w' = JObject [("17", JNumber (Num 1))] ∧
    getProp status "17" =
      Normal (JObject [("value", JNumber (Num 1)); ("label", JString "LED");
                       ("direction", JString "out")]) ∧
    V1.published w' = [mkPublish "home/gpio/17/state" "ON" false].
Proof.
  destruct (first_server_message_sets_output env1 (started1 config17)
              "home/gpio/17/set" "ON" "17"
              (V1.mkEntry (V1.mkGpio (JNumber (Num 17)) (JString "out") (Num 0) [])
                 (JString "LED") (JString "out")) []
              eq_refl eq_refl eq_refl)
    as (w' & status & Hrun & _ & Hs & _ & _ & Hst & _ & Hp & _).
  - intros pin' obj' _. reflexivity.
  - reflexivity.
  - reflexivity.
  - exists w', status. split; [exact Hrun|]. split; [exact Hs|].
    split; [exact Hst | exact Hp].
Defined.

(** X23: a set request of the first server under faults.  Its handlers have
    no [try]: for an output, when the driver refuses the write (or, for a
    'toggle', the read before it) the handler throws and nothing has changed;
    when the disk refuses the state file the handler throws after the adapter
    and the state in memory have taken the new level, and no status and no
    broker message is sent; the file is as before. *)
Theorem first_server_set_request_faults (env : V1.Env) (w : V1.World)
    (pin : string) (obj : V1.Entry) (ms : list (string * JsValue)) :
  V1.outEntry w pin = Some obj →
  V1.savedState w = JObject ms →
  let stopped (v : JsNum) :=
    (V1.set_savedState (JObject (setMember pin (JNumber v) ms))
       (V1.set_pins (<[pin := V1.withLevel obj v]> (V1.pins w)) w), @Thrown unit) in
  (∀ topic message,
     V1.searchSetTopic topic = Some pin →
     (write_throws (V1.driver env) (V1.line (V1.gpio obj)) = true →
      V1.on_mqtt_message env topic message w = (w, Thrown)) ∧
     (write_throws (V1.driver env) (V1.line (V1.gpio obj)) = false →
      V1.write_fails env V1.STATE_FILE = true →
      V1.on_mqtt_message env topic message w = stopped (V1.payloadValue message))) ∧
  (∀ name,
     ToString name = pin →
     (read_throws (V1.driver env) (V1.line (V1.gpio obj)) = true ∨
      write_throws (V1.driver env) (V1.line (V1.gpio obj)) = true →
      V1.on_toggle env name w = (w, Thrown)) ∧
     (read_throws (V1.driver env) (V1.line (V1.gpio obj)) = false →
      write_throws (V1.driver env) (V1.line (V1.gpio obj)) = false →
      V1.write_fails env V1.STATE_FILE = true →
      V1.on_toggle env name w
      = stopped (bitXor (V1.gpio_value (V1.gpio obj)) (Num 1)))).
Proof.
  intros Ho Hs stopped. split.
  - intros topic message Hm.
    rewrite (V1Set.on_mqtt_message_setOutput env w topic message pin obj Hm Ho).
    split.
    + apply V1Set.setOutput_write_throws.
    + intros Hw Hf. by apply V1Set.setOutput_disk_fails.
  - intros name <-. rewrite (V1Set.on_toggle_setOutput env w name obj Ho).
    unfold mbind at 1, M_bind at 1, eval at 1, V1.readSync.
    split.
    + intros [Hr|Hw]; [by rewrite Hr|].
      destruct (read_throws _ _); [done|]. by apply V1Set.setOutput_write_throws.
    + intros Hr Hw Hf. rewrite Hr. by apply V1Set.setOutput_disk_fails.
Qed.

Lemma first_server_set_request_faults_witness :
  let full := V1.mkEnv mockDriver (λ _, true) in
  let w := started1 config17 in
  V1.on_toggle full (JNumber (Num 17)) w
  = (V1.set_savedState (JObject [("17", JNumber (Num 1))])
       (V1.set_pins
          (<["17" := V1.mkEntry (V1.mkGpio (JNumber (Num 17)) (JString "out") (Num 1) [])
                       (JString "LED") (JString "out")]> (V1.pins w)) w),
     Thrown).
Proof.
  intros full w.
  exact (proj2 (proj2 (first_server_set_request_faults full w "17"
                         (V1.mkEntry (V1.mkGpio (JNumber (Num 17)) (JString "out") (Num 0) [])
                            (JString "LED") (JString "out")) []
                         eq_refl eq_refl)
                  (JNumber (Num 17)) eq_refl) eq_refl eq_refl eq_refl).
Defined.

(** X24: how a config POST of the first server ends once 'pins' is an array.
    When the config file cannot be written the request is answered 500 and
    nothing has changed, the config in memory included.  When the file is
    written, the config in memory is the posted document and the pin map is
    rebuilt; the request is answered 200 if the rebuild returns and 500, 'Failed
    to save config', if the rebuild throws, although the file was saved; the
    rebuild throws with an empty pin map when the first entry is null or its
    line cannot be opened. *)
Theorem first_server_config_post (env : V1.Env) (w : V1.World)
    (bms : list (string * JsValue)) (items : list JsValue) :
  lookupMember "pins" bms = Some (JArray items) →
  let body := JObject bms in
  let failed := mkResponse 500 (JObject [("error", JString "Failed to save config")]) in
  (V1.write_fails env V1.CONFIG_FILE = true →
   V1.post_api_config env body w = (w, Normal failed)) ∧
  (V1.write_fails env V1.CONFIG_FILE = false →
   let w1 := V1.set_config body
               (V1.set_files (<[V1.CONFIG_FILE := Json (jsonImage body)]> (V1.files w)) w) in
   (∀ w2, V1.setupGpioPins env w1 = (w2, Normal tt) →
      V1.post_api_config env body w
      = (w2, Normal (mkResponse 200 (JObject [("success", JBool true)])))) ∧
   (∀ w2, V1.setupGpioPins env w1 = (w2, Thrown) →
      V1.post_api_config env body w = (w2, Normal failed)) ∧
   (∀ p rest, items = p :: rest →
      (p = JUndefined ∨ p = JNull ∨ ctor_throws (V1.driver env) (V1.pinKey p) = true) →
      V1.post_api_config env body w = (V1.set_pins ∅ w1, Normal failed))).
Proof.
  intros Hp body failed. split.
  - intros Hf. exact (V1Config.post_api_config_disk_fails env w bms items Hp Hf).
  - intros Hf w1.
    pose proof (V1Config.post_api_config_saved env w bms items Hp Hf) as Hpost.
    cbn zeta in Hpost. fold body in Hpost. fold w1 in Hpost.
    split; [|split].
    + intros w2 H2. by rewrite Hpost, H2.
    + intros w2 H2. by rewrite Hpost, H2.
    + intros p rest -> Hrej. rewrite Hpost.
      rewrite (V1Config.setupGpioPins_first_rejected env w1 p rest); [done| |done].
      unfold w1, body. cbn [V1.config V1.set_config getProp]. by rewrite Hp.
Qed.

Lemma first_server_config_post_witness :
  let w := started1 config17 in
  let body := JObject [("pins", JArray [JNull])] in
  V1.post_api_config (V1.mkEnv mockDriver (λ _, true)) body w
  = (w, Normal (mkResponse 500 (JObject [("error", JString "Failed to save config")]))) ∧
  V1.post_api_config env1 body w
  = (V1.set_pins ∅
       (V1.set_config body
          (V1.set_files (<[V1.CONFIG_FILE := Json body]> (V1.files w)) w)),
     Normal (mkResponse 500 (JObject [("error", JString "Failed to save config")]))).
Proof.
  intros w body. split.
  - exact (proj1 (first_server_config_post (V1.mkEnv mockDriver (λ _, true)) w
                    [("pins", JArray [JNull])] [JNull] eq_refl) eq_refl).
  - exact (proj2 (proj2 (proj2 (first_server_config_post env1 w
                                  [("pins", JArray [JNull])] [JNull] eq_refl) eq_refl))
             JNull [] eq_refl (or_intror (or_introl eq_refl))).
Defined.



(** X26: the topics that the first server takes as set topics.  Its
    expression is not anchored: the handler finds a pin name in a topic
    exactly when the topic contains 'home/gpio/', a non-empty run of digits
    and '/set' somewhere, and the name it finds is such a run of digits of the
    topic; on a topic that contains no such text it changes nothing. *)
Theorem first_server_set_topic_is_searched :
  (∀ topic ds,
     V1.searchSetTopic topic = Some ds →
     ds ≠ "" ∧ allChars isDigit ds = true ∧
     ∃ pre post, topic = pre +:+ "home/gpio/" +:+ ds +:+ "/set" +:+ post) ∧
  (∀ pre ds post,
     ds ≠ "" → allChars isDigit ds = true →
     ∃ ds', V1.searchSetTopic (pre +:+ "home/gpio/" +:+ ds +:+ "/set" +:+ post) = Some ds') ∧
  (∀ env topic message w,
     V1.searchSetTopic topic = None →
     V1.on_mqtt_message env topic message w = (w, Normal tt)).
Proof.
  split; [|split].
  - apply searchSetTopic_Some.
  - apply searchSetTopic_finds.
  - intros env topic message w Hno. unfold V1.on_mqtt_message. by rewrite Hno.
Qed.

Lemma first_server_set_topic_is_searched_witness :
  (∃ pre post, "x/home/gpio/17/setx" = pre +:+ "home/gpio/" +:+ "17" +:+ "/set" +:+ post) ∧
  (∃ ds', V1.searchSetTopic ("x/" +:+ "home/gpio/" +:+ "17" +:+ "/set" +:+ "x") = Some ds') ∧
  V1.on_mqtt_message env1 "home/gpio/x/set" "ON" (started1 config17)
  = (started1 config17, Normal tt).
Proof.
  destruct first_server_set_topic_is_searched as (H1 & H2 & H3).
  split; [|split].
  - exact (proj2 (proj2 (H1 "x/home/gpio/17/setx" "17" eq_refl))).
  - apply (H2 "x/" "17" "x"); [discriminate | reflexivity].
  - exact (H3 env1 "home/gpio/x/set" "ON" (started1 config17) eq_refl).
Defined.

(** X27: what the first server does with a level change on an input.  For an
    entry that holds the watcher registered for the config number [number],
    when every line can be read, the watcher sends one status object to all
    sessions and one publish, not retained, of 'ON' or 'OFF' on
    'home/gpio/<number>/state'; it returns normally and leaves the state in
    memory, the files and the config untouched. *)
Theorem first_server_input_change_is_forwarded (env : V1.Env) (w : V1.World)
    (pin : string) (obj : V1.Entry) (number : JsValue) (value : JsNum) :
  V1.pins w !! pin = Some obj →
  V1.gpio_watchers (V1.gpio obj) = [V1.ForwardInput number] →
  (∀ pin' obj', V1.pins w !! pin' = Some obj' →
     read_throws (V1.driver env) (V1.line (V1.gpio obj')) = false) →
  ∃ w' status,
    V1.on_input_change env pin value w = (w', Normal tt) ∧
    V1.emitted w' = (V1.emitted w ++ [status])%list ∧
    V1.published w' =
      (V1.published w ++
       [mkPublish ("home/gpio/" +:+ ToString number +:+ "/state")
                  (if truthyNum value then "ON" else "OFF") false])%list ∧
    V1.savedState w' = V1.savedState w ∧ V1.files w' = V1.files w ∧
    V1.config w' = V1.config w ∧ V1.subscribed w' = V1.subscribed w.
Proof.
  intros Hp Hw Hr.
  rewrite (V1Input.on_input_change_watched_v1 env w pin obj number value Hp Hw).
  destruct (V1More.emitStatus_readable env
              (V1.set_pins (<[pin := V1.withLevel obj value]> (V1.pins w)) w))
    as (status & He & _).
  { intros pin' obj'. cbn [V1.pins V1.set_pins].
    destruct (decide (pin = pin')) as [<-|Hne].
    - rewrite lookup_insert_eq. intros [= <-]. exact (Hr pin obj Hp).
    - rewrite lookup_insert_ne by done. apply Hr. }
  eexists _, status. unfold mbind, M_bind. rewrite He. split; [done|]. done.
Qed.

Lemma first_server_input_change_is_forwarded_witness :
  ∃ w' status,
    V1.on_input_change env1 "22" (Num 1) (started1 config22) = (w', Normal tt) ∧
    V1.emitted w' = [status] ∧
    V1.published w' = [mkPublish "home/gpio/22/state" "ON" false] ∧
    V1.savedState w' = JObject [].
Proof.
  destruct (first_server_input_change_is_forwarded env1 (started1 config22) "22"
              (V1.mkEntry
                 (V1.mkGpio (JNumber (Num 22)) (JString "in") (Num 0)
                    [V1.ForwardInput (JNumber (Num 22))])
                 (JString "Button") (JString "in"))
              (JNumber (Num 22)) (Num 1) eq_refl eq_refl)
    as (w' & status & Hrun & Hem & Hpub & Hst & _).
  - intros pin' obj' _. reflexivity.
  - exists w', status. split; [exact Hrun|]. split; [exact Hem|].
    split; [exact Hpub | exact Hst].
Defined.
